(** * PhotoForge credit accounting: ledger, job intake and monthly reset

    A shallow embedding of
    - [lib/config/pricing.ts]            (tier table, [calculateRollover]),
    - [lib/services/credit-service.ts]   (the [CreditService] class),
    - the job submission route           ([POST]),
    - the monthly reset cron route       ([GET]),
    followed by the properties of the credit ledger.

    Credits are Prisma [Int] columns; they are modelled as [Z].  The
    database is an explicit state threaded through a state-and-exception
    monad: every [await prisma....] is one atomic action on that state. *)

From Stdlib Require Import Ascii String ZArith QArith Lia.
From stdpp Require Import gmap strings list fin_maps pretty.

Local Open Scope Z_scope.

(* ===================================================================== *)
(** ** lib/config/pricing.ts *)
(* ===================================================================== *)

Module Pricing.

Inductive TierName := free | starter | professional | enterprise.

#[global] Instance TierName_eq_dec : EqDecision TierName.
Proof. solve_decision. Defined.

(** [features], [popular] and [stripePriceId] are display and billing
    data that the ledger never reads; they are left out. *)
Record TierConfig := {
  name : TierName;
  displayName : string;
  monthlyPrice : Z;
  monthlyCredits : Z;
  rolloverCap : Z
}.

Definition PRICING_TIERS (t : TierName) : TierConfig :=
  match t with
  | free =>
      {| name := free; displayName := "Free";
         monthlyPrice := 0; monthlyCredits := 5; rolloverCap := 0 |}
  | starter =>
      {| name := starter; displayName := "Starter";
         monthlyPrice := 49; monthlyCredits := 100; rolloverCap := 50 |}
  | professional =>
      {| name := professional; displayName := "Professional";
         monthlyPrice := 149; monthlyCredits := 400; rolloverCap := 200 |}
  | enterprise =>
      {| name := enterprise; displayName := "Enterprise";
         monthlyPrice := 449; monthlyCredits := 2000; rolloverCap := 500 |}
  end.

Definition getTierConfig (tierName : TierName) : TierConfig :=
  PRICING_TIERS tierName.

Definition calculateRollover
    (currentBalance monthlyCredits rolloverCap : Z) : Z :=
  let unusedCredits := Z.max 0 currentBalance in
  let rolloverAmount := Z.min unusedCredits rolloverCap in
  monthlyCredits + rolloverAmount.

(** [stripePriceId] comes from the environment and is left out. *)
Record AlaCarteOption := {
  credits : Z;
  price : Z
}.

Definition ALA_CARTE_OPTIONS : list AlaCarteOption :=
  [ {| credits := 50; price := 29 |};
    {| credits := 100; price := 49 |};
    {| credits := 500; price := 199 |} ].

(** [ALA_CARTE_OPTIONS.find(option => option.credits === credits)] *)
Definition getAlaCarteOption (wanted : Z) : option AlaCarteOption :=
  List.find (fun option => credits option =? wanted) ALA_CARTE_OPTIONS.

End Pricing.

(* ===================================================================== *)
(** ** The persisted schema *)
(* ===================================================================== *)

Module User.
(** The columns of [prisma.user] that the credit core selects or
    writes.  [tier] is stored as text and cast with [as TierName]. *)
Record t := {
  tier : Pricing.TierName;
  creditsBalance : Z;
  monthlyCredits : Z;
  rolloverCap : Z;
  creditsUsedThisMonth : Z;
  lastCreditReset : Z          (* instant, in milliseconds *)
}.
End User.

Module CreditTransaction.
Inductive kind := purchase | usage | refund | monthly_reset | tier_change.

Record t := {
  userId : string;
  amount : Z;
  type : kind;
  description : string;
  jobId : option string
}.
End CreditTransaction.

Module Job.
Inductive state := pending | queued | processing | completed | failed.

Record t := {
  id : string;
  userId : string;
  status : state;
  originalImageUrl : option string;
  modelType : string;
  sceneStyle : string;
  quantity : nat;
  creditsReserved : Z;
  creditsConsumed : Z;
  backgroundPrompt : string;
  inputImages : list string;
  imageCount : nat;
  progress : Z;
  errorMessage : option string
}.
End Job.

(** The database: the user table keyed by id, the append-only
    transaction table in insertion order, the job table keyed by id. *)
Record Db := {
  users : gmap string User.t;
  creditTransactions : list CreditTransaction.t;
  jobs : gmap string Job.t
}.

Definition with_users (m : gmap string User.t) (db : Db) : Db :=
  {| users := m; creditTransactions := creditTransactions db; jobs := jobs db |}.

Definition with_creditTransactions (l : list CreditTransaction.t) (db : Db) : Db :=
  {| users := users db; creditTransactions := l; jobs := jobs db |}.

Definition with_jobs (m : gmap string Job.t) (db : Db) : Db :=
  {| users := users db; creditTransactions := creditTransactions db; jobs := m |}.

(* ===================================================================== *)
(** ** Async code as a state-and-exception monad *)
(* ===================================================================== *)

Inductive outcome (A : Type) :=
| Return (a : A)
| Throw (message : string).
Arguments Return {A} a.
Arguments Throw {A} message.

(** A computation runs against the database and leaves it in a new
    state, also when it throws: writes made before the [throw] stay. *)
Definition M (A : Type) : Type := Db -> outcome A * Db.

Definition ret {A} (a : A) : M A := fun db => (Return a, db).

Definition throw {A} (message : string) : M A := fun db => (Throw message, db).

Definition bind {A B} (c : M A) (k : A -> M B) : M B :=
  fun db =>
    match c db with
    | (Return a, db') => k a db'
    | (Throw e, db') => (Throw e, db')
    end.

(** [try { c } catch (e) { h e }] *)
Definition try_catch {A} (c : M A) (h : string -> M A) : M A :=
  fun db =>
    match c db with
    | (Return a, db') => (Return a, db')
    | (Throw e, db') => h e db'
    end.

Notation "'let!' x ':=' c 'in' k" := (bind c (fun x => k))
  (at level 10, x name, c at level 100, k at level 200).
Notation "'do!' c 'in' k" := (bind c (fun _ => k))
  (at level 10, c at level 100, k at level 200).

(* ===================================================================== *)
(** ** The Prisma calls used by the code *)
(* ===================================================================== *)

Module prisma.

(** [prisma.user.findUnique({ where: { id } })] *)
Definition user_findUnique (id : string) : M (option User.t) :=
  fun db => (Return (users db !! id), db).

(** [prisma.user.update({ where: { id }, data })]: rejects when no row
    has that id. *)
Definition user_update (id : string) (data : User.t -> User.t) : M unit :=
  fun db =>
    match users db !! id with
    | Some u => (Return tt, with_users (<[id := data u]> (users db)) db)
    | None => (Throw "Record to update not found.", db)
    end.

(** [prisma.user.findMany({ where, select: { id: true } })] *)
Definition user_findMany (where_ : User.t -> bool) : M (list string) :=
  fun db =>
    (Return (fst <$> filter (fun kv => where_ (snd kv) = true)
                            (map_to_list (users db))), db).

(** [prisma.creditTransaction.create({ data })] *)
Definition creditTransaction_create (data : CreditTransaction.t) : M unit :=
  fun db =>
    (Return tt, with_creditTransactions (creditTransactions db ++ [data]) db).

(** [prisma.job.create({ data })]: the id is the primary key. *)
Definition job_create (data : Job.t) : M Job.t :=
  fun db =>
    match jobs db !! Job.id data with
    | None => (Return data, with_jobs (<[Job.id data := data]> (jobs db)) db)
    | Some _ => (Throw "Unique constraint failed on the fields: (`id`)", db)
    end.

(** [prisma.job.update({ where: { id }, data })] *)
Definition job_update (id : string) (data : Job.t -> Job.t) : M unit :=
  fun db =>
    match jobs db !! id with
    | Some j => (Return tt, with_jobs (<[id := data j]> (jobs db)) db)
    | None => (Throw "Record to update not found.", db)
    end.

End prisma.

(* ===================================================================== *)
(** ** lib/services/credit-service.ts *)
(* ===================================================================== *)

Module CreditService.

Import Pricing.

Definition user_not_found (userId : string) : string :=
  "User not found: " +:+ userId.

Record ResetResult := {
  reset_success : bool;
  previousBalance : Z;
  reset_newBalance : Z;
  rolledOverAmount : Z;
  reset_monthlyCredits : Z
}.

(** [resetMonthlyCredits(userId)]; [now] is what [new Date()] returns
    while the user row is written. *)
Definition resetMonthlyCredits (now : Z) (userId : string) : M ResetResult :=
  let! user := prisma.user_findUnique userId in
  match user with
  | None => throw (user_not_found userId)
  | Some user =>
      let tierConfig := getTierConfig (User.tier user) in
      let previousBalance := User.creditsBalance user in
      let newBalance :=
        calculateRollover previousBalance
          (monthlyCredits tierConfig) (rolloverCap tierConfig) in
      let rolledOverAmount :=
        Z.min (Z.max 0 previousBalance) (rolloverCap tierConfig) in
      do! prisma.user_update userId (fun u =>
            {| User.tier := User.tier u;
               User.creditsBalance := newBalance;
               User.creditsUsedThisMonth := 0;
               User.lastCreditReset := now;
               User.monthlyCredits := monthlyCredits tierConfig;
               User.rolloverCap := rolloverCap tierConfig |}) in
      do! prisma.creditTransaction_create
            {| CreditTransaction.userId := userId;
               CreditTransaction.amount := monthlyCredits tierConfig;
               CreditTransaction.type := CreditTransaction.monthly_reset;
               CreditTransaction.description :=
                 "Monthly credit reset: " +:+ pretty (monthlyCredits tierConfig)
                 +:+ " new credits + " +:+ pretty rolledOverAmount
                 +:+ " rolled over (cap: " +:+ pretty (rolloverCap tierConfig)
                 +:+ ")";
               CreditTransaction.jobId := None |} in
      ret {| reset_success := true;
             previousBalance := previousBalance;
             reset_newBalance := newBalance;
             rolledOverAmount := rolledOverAmount;
             reset_monthlyCredits := monthlyCredits tierConfig |}
  end.

(** [updateUserTier(userId, newTier)] *)
Definition updateUserTier (userId : string) (newTier : TierName) : M unit :=
  let tierConfig := getTierConfig newTier in
  do! prisma.user_update userId (fun u =>
        {| User.tier := newTier;
           User.creditsBalance := User.creditsBalance u;
           User.creditsUsedThisMonth := User.creditsUsedThisMonth u;
           User.lastCreditReset := User.lastCreditReset u;
           User.monthlyCredits := monthlyCredits tierConfig;
           User.rolloverCap := rolloverCap tierConfig |}) in
  prisma.creditTransaction_create
    {| CreditTransaction.userId := userId;
       CreditTransaction.amount := 0;
       CreditTransaction.type := CreditTransaction.tier_change;
       CreditTransaction.description :=
         "Tier updated to " +:+ displayName tierConfig +:+ " ("
         +:+ pretty (monthlyCredits tierConfig) +:+ " credits/month, "
         +:+ pretty (rolloverCap tierConfig) +:+ " rollover cap)";
       CreditTransaction.jobId := None |}.

(** The two columns written by [deductCredits] and [refundCredits]. *)
Definition set_credits (newBalance newUsedThisMonth : Z) (u : User.t) : User.t :=
  {| User.tier := User.tier u;
     User.creditsBalance := newBalance;
     User.creditsUsedThisMonth := newUsedThisMonth;
     User.lastCreditReset := User.lastCreditReset u;
     User.monthlyCredits := User.monthlyCredits u;
     User.rolloverCap := User.rolloverCap u |}.

(** The one column written by [addAlaCarteCredits]. *)
Definition set_balance (newBalance : Z) (u : User.t) : User.t :=
  set_credits newBalance (User.creditsUsedThisMonth u) u.

(** [addAlaCarteCredits(userId, credits, stripePaymentIntentId)] *)
Definition addAlaCarteCredits
    (userId : string) (credits : Z) (stripePaymentIntentId : string) : M unit :=
  let! user := prisma.user_findUnique userId in
  match user with
  | None => throw (user_not_found userId)
  | Some user =>
      let newBalance := User.creditsBalance user + credits in
      do! prisma.user_update userId (set_balance newBalance) in
      prisma.creditTransaction_create
        {| CreditTransaction.userId := userId;
           CreditTransaction.amount := credits;
           CreditTransaction.type := CreditTransaction.purchase;
           CreditTransaction.description :=
             "À la carte purchase: " +:+ pretty credits
             +:+ " credits (Payment: " +:+ stripePaymentIntentId +:+ ")";
           CreditTransaction.jobId := None |}
  end.

Record DeductResult := {
  success : bool;
  newBalance : Z;
  insufficientCredits : bool
}.

Definition usage_transaction
    (userId : string) (amount : Z) (jobId description : string)
    : CreditTransaction.t :=
  {| CreditTransaction.userId := userId;
     CreditTransaction.amount := - amount;
     CreditTransaction.type := CreditTransaction.usage;
     CreditTransaction.description := description;
     CreditTransaction.jobId := Some jobId |}.

(** [deductCredits(userId, amount, jobId, description)] *)
Definition deductCredits
    (userId : string) (amount : Z) (jobId description : string)
    : M DeductResult :=
  let! user := prisma.user_findUnique userId in
  match user with
  | None => throw (user_not_found userId)
  | Some user =>
      if User.creditsBalance user <? amount then
        ret {| success := false;
               newBalance := User.creditsBalance user;
               insufficientCredits := true |}
      else
        let newBalance := User.creditsBalance user - amount in
        let newUsedThisMonth := User.creditsUsedThisMonth user + amount in
        do! prisma.user_update userId (set_credits newBalance newUsedThisMonth) in
        do! prisma.creditTransaction_create
              (usage_transaction userId amount jobId description) in
        ret {| success := true;
               newBalance := newBalance;
               insufficientCredits := false |}
  end.

Definition refund_transaction
    (userId : string) (amount : Z) (jobId reason : string)
    : CreditTransaction.t :=
  {| CreditTransaction.userId := userId;
     CreditTransaction.amount := amount;
     CreditTransaction.type := CreditTransaction.refund;
     CreditTransaction.description := "Credit refund: " +:+ reason;
     CreditTransaction.jobId := Some jobId |}.

(** [refundCredits(userId, amount, jobId, reason)] *)
Definition refundCredits
    (userId : string) (amount : Z) (jobId reason : string) : M unit :=
  let! user := prisma.user_findUnique userId in
  match user with
  | None => throw (user_not_found userId)
  | Some user =>
      let newBalance := User.creditsBalance user + amount in
      let newUsedThisMonth := Z.max 0 (User.creditsUsedThisMonth user - amount) in
      do! prisma.user_update userId (set_credits newBalance newUsedThisMonth) in
      prisma.creditTransaction_create
        (refund_transaction userId amount jobId reason)
  end.

Record CreditSummary := {
  currentBalance : Z;
  monthlyAllocation : Z;
  usedThisMonth : Z;
  summary_rolloverCap : Z;
  summary_tier : TierName;
  lastReset : Z;
  nextReset : Z
}.

Section Summary.

(** [d.setMonth(d.getMonth() + 1)] on an instant: the calendar
    arithmetic of the JavaScript [Date] object, taken as given. *)
Variable oneMonthAfter : Z -> Z.

(** [getCreditSummary(userId)] *)
Definition getCreditSummary (userId : string) : M CreditSummary :=
  let! user := prisma.user_findUnique userId in
  match user with
  | None => throw (user_not_found userId)
  | Some user =>
      let nextReset := oneMonthAfter (User.lastCreditReset user) in
      ret {| currentBalance := User.creditsBalance user;
             monthlyAllocation := User.monthlyCredits user;
             usedThisMonth := User.creditsUsedThisMonth user;
             summary_rolloverCap := User.rolloverCap user;
             summary_tier := User.tier user;
             lastReset := User.lastCreditReset user;
             nextReset := nextReset |}
  end.

End Summary.

Section ResetSelection.

(** [d.setMonth(d.getMonth() - 1)] on an instant: the calendar
    arithmetic of the JavaScript [Date] object, taken as given. *)
Variable oneMonthBefore : Z -> Z.

(** [getUsersNeedingReset()]; [now] is what [new Date()] returns. *)
Definition getUsersNeedingReset (now : Z) : M (list string) :=
  let oneMonthAgo := oneMonthBefore now in
  prisma.user_findMany (fun u =>
    (User.lastCreditReset u <=? oneMonthAgo)
    && negb (bool_decide (User.tier u = free))).

End ResetSelection.

End CreditService.

(* ===================================================================== *)
(** ** The monthly reset cron route ([GET]) *)
(* ===================================================================== *)

Module CronRoute.

Record Env := {
  NODE_ENV : option string;
  CRON_SECRET : option string
}.

Record Results := {
  total : nat;
  successful : nat;
  failed : nat;
  errors : list string
}.

Inductive Body :=
| Unauthorized
| Completed (results : Results)
| Failed (message : string).

Record Response := { status : Z; body : Body }.

(** A template literal prints an unset variable as [undefined]. *)
Definition bearer (secret : option string) : string :=
  "Bearer " +:+ default "undefined" secret.

Definition succeeded (r : Results) : Results :=
  {| total := total r; successful := S (successful r);
     failed := failed r; errors := errors r |}.

Definition errored (userId message : string) (r : Results) : Results :=
  {| total := total r; successful := successful r;
     failed := S (failed r);
     errors := errors r ++ ["User " +:+ userId +:+ ": " +:+ message] |}.

(** The [for (const userId of userIds)] loop with its [try]/[catch];
    [resetAt userId] is the instant at which that user is reset. *)
Fixpoint processEach
    (resetAt : string -> Z) (userIds : list string) (results : Results)
    : M Results :=
  match userIds with
  | [] => ret results
  | userId :: rest =>
      let! results' :=
        try_catch
          (let! result :=
             CreditService.resetMonthlyCredits (resetAt userId) userId in
           ret (succeeded results))
          (fun message => ret (errored userId message results)) in
      processEach resetAt rest results'
  end.

Section Handler.

Variable oneMonthBefore : Z -> Z.
Variable env : Env.

(** [GET(request)]: [authorization] is the request header, [now] the
    instant of the selection query. *)
Definition GET
    (authorization : option string) (now : Z) (resetAt : string -> Z)
    : M Response :=
  try_catch
    (if bool_decide (NODE_ENV env = Some "production")
        && negb (bool_decide (authorization = Some (bearer (CRON_SECRET env))))
     then ret {| status := 401; body := Unauthorized |}
     else
       let! userIds := CreditService.getUsersNeedingReset oneMonthBefore now in
       let results :=
         {| total := length userIds; successful := 0;
            failed := 0; errors := [] |} in
       let! results := processEach resetAt userIds results in
       ret {| status := 200; body := Completed results |})
    (fun message => ret {| status := 500; body := Failed message |}).

End Handler.

End CronRoute.

(* ===================================================================== *)
(** ** The job submission route ([POST]) *)
(* ===================================================================== *)

Module JobsRoute.

Record File := {
  file_name : string;
  file_type : string;
  file_bytes : string
}.

Record Request := {
  session_user : option string;        (* [session?.user], by its id *)
  images : list File;                  (* [formData.getAll("images")] *)
  backgroundPrompt : option string     (* [formData.get("backgroundPrompt")] *)
}.

Record JobSummary := {
  summary_id : string;
  summary_status : Job.state;
  summary_imageCount : nat;
  summary_creditsReserved : Z
}.

Inductive Body :=
| Error (error : string)
| InsufficientCredits (required available : Z)
| Created (job : JobSummary).

Record Response := { status : Z; body : Body }.

(** What [queueService.addJob] is given. *)
Record QueueJob := {
  queue_jobId : string;
  queue_userId : string;
  queue_backgroundPrompt : string;
  queue_inputImages : list string
}.

(** Texts are held as their UTF-8 bytes, the form in which the prompt
    arrives in the multipart body.  [codePoints] reads the characters
    back: one to four bytes each, a byte that starts no well-formed
    character reading as U+FFFD. *)
Definition continuation (b : N) : bool := ((128 <=? b) && (b <? 192))%N.

Fixpoint codePoints (s : string) : list N :=
  match s with
  | EmptyString => []
  | String c1 r1 =>
      let b1 := N_of_ascii c1 in
      if (b1 <? 128)%N then b1 :: codePoints r1
      else
        match r1 with
        | EmptyString => [65533%N]
        | String c2 r2 =>
            let b2 := N_of_ascii c2 in
            if ((194 <=? b1) && (b1 <? 224))%N && continuation b2
            then ((b1 - 192) * 64 + (b2 - 128))%N :: codePoints r2
            else
              match r2 with
              | EmptyString => 65533%N :: codePoints r1
              | String c3 r3 =>
                  let b3 := N_of_ascii c3 in
                  let three :=
                    ((b1 - 224) * 4096 + (b2 - 128) * 64 + (b3 - 128))%N in
                  if ((224 <=? b1) && (b1 <? 240))%N
                     && continuation b2 && continuation b3
                     && (2048 <=? three)%N
                  then three :: codePoints r3
                  else
                    match r3 with
                    | EmptyString => 65533%N :: codePoints r1
                    | String c4 r4 =>
                        let b4 := N_of_ascii c4 in
                        let four :=
                          ((b1 - 240) * 262144 + (b2 - 128) * 4096
                           + (b3 - 128) * 64 + (b4 - 128))%N in
                        if ((240 <=? b1) && (b1 <? 245))%N
                           && continuation b2 && continuation b3
                           && continuation b4
                           && ((65536 <=? four) && (four <? 1114112))%N
                        then four :: codePoints r4
                        else 65533%N :: codePoints r1
                    end
              end
        end
  end.

(** What [String.prototype.trim] strips: the WhiteSpace and
    LineTerminator code points of ECMAScript -- TAB, LF, VT, FF, CR,
    SPACE, NO-BREAK SPACE, the other space separators (U+1680,
    U+2000..U+200A, U+202F, U+205F, U+3000), LINE and PARAGRAPH
    SEPARATOR (U+2028, U+2029) and the byte order mark (U+FEFF). *)
Definition isWhiteSpace (codePoint : N) : bool :=
  ((9 <=? codePoint) && (codePoint <=? 13)
   || (codePoint =? 32) || (codePoint =? 160) || (codePoint =? 5760)
   || (8192 <=? codePoint) && (codePoint <=? 8202)
   || (codePoint =? 8232) || (codePoint =? 8233) || (codePoint =? 8239)
   || (codePoint =? 8287) || (codePoint =? 12288) || (codePoint =? 65279))%N.

Fixpoint trimStart (text : list N) : list N :=
  match text with
  | c :: rest => if isWhiteSpace c then trimStart rest else text
  | [] => []
  end.

Definition trim (text : list N) : list N :=
  rev (trimStart (rev (trimStart text))).

(** [!backgroundPrompt || backgroundPrompt.trim().length === 0] *)
Definition promptMissing (prompt : option string) : bool :=
  match prompt with
  | None => true
  | Some s =>
      bool_decide (s = EmptyString)
      || (length (trim (codePoints s)) =? 0)%nat
  end.

(** [name.split(".").pop()]: the text after the last dot. *)
Fixpoint lastSegment (current s : string) : string :=
  match s with
  | EmptyString => current
  | String c rest =>
      if Ascii.eqb c "."%char then lastSegment EmptyString rest
      else lastSegment (current +:+ String c EmptyString) rest
  end.

(** [file.name.split(".").pop() || "jpg"] *)
Definition extension (file : File) : string :=
  let ext := lastSegment EmptyString (file_name file) in
  if bool_decide (ext = EmptyString) then "jpg" else ext.

Definition lift {A} (o : outcome A) : M A := fun db => (o, db).

Section Handler.

(** Collaborators and helpers imported by the route from modules that
    are outside the ledger: the pricing helpers of [@/lib/pricing], the
    storage service and the queue service.  A collaborator that rejects
    is an [outcome] that throws. *)
Variable calculateBatchCredits : nat -> Z.
Variable discountPercent : nat -> Z.
  (* [Math.round(getBatchDiscountInfo(n).discount * 100)], or 0 *)
Variable hasEnoughCredits : Z -> Z -> bool.
Variable uploadBuffer : string -> string -> string -> outcome string.
Variable addJob : QueueJob -> outcome unit.

(** The upload loop, from index [i] on. *)
Fixpoint uploadImages
    (jobId : string) (i : nat) (files : list File) (imageUrls : list string)
    : M (list string) :=
  match files with
  | [] => ret imageUrls
  | file :: rest =>
      let ext := extension file in
      let filename := jobId +:+ "_input_" +:+ pretty i +:+ "." +:+ ext in
      let! url := lift (uploadBuffer (file_bytes file) filename (file_type file)) in
      uploadImages jobId (S i) rest (imageUrls ++ [url])
  end.

Definition reservationText (totalCredits : Z) (count : nat) (discount : Z) : string :=
  "Reserved " +:+ pretty totalCredits +:+ " credits for " +:+ pretty count
  +:+ " images"
  +:+ (if 0 <? discount then " (" +:+ pretty discount +:+ "% discount)"
       else EmptyString).

Definition queueFailure : string := "Failed to queue job for processing".

Definition markFailed (j : Job.t) : Job.t :=
  {| Job.id := Job.id j; Job.userId := Job.userId j;
     Job.status := Job.failed;
     Job.originalImageUrl := Job.originalImageUrl j;
     Job.modelType := Job.modelType j; Job.sceneStyle := Job.sceneStyle j;
     Job.quantity := Job.quantity j;
     Job.creditsReserved := Job.creditsReserved j;
     Job.creditsConsumed := Job.creditsConsumed j;
     Job.backgroundPrompt := Job.backgroundPrompt j;
     Job.inputImages := Job.inputImages j;
     Job.imageCount := Job.imageCount j; Job.progress := Job.progress j;
     Job.errorMessage := Some queueFailure |}.

Definition newJob
    (jobId userId prompt : string) (imageUrls : list string)
    (count : nat) (totalCredits : Z) : Job.t :=
  {| Job.id := jobId; Job.userId := userId;
     Job.status := Job.pending;
     Job.originalImageUrl := head imageUrls;
     Job.modelType := "realistic"; Job.sceneStyle := prompt;
     Job.quantity := count;
     Job.creditsReserved := totalCredits;
     Job.creditsConsumed := 0;
     Job.backgroundPrompt := prompt;
     Job.inputImages := imageUrls;
     Job.imageCount := count; Job.progress := 0;
     Job.errorMessage := None |}.

(** [POST(request)]; [jobId] is what [crypto.randomUUID()] returns. *)
Definition POST (request : Request) (jobId : string) : M Response :=
  try_catch
    (match session_user request with
     | None => ret {| status := 401; body := Error "Unauthorized" |}
     | Some sessionUserId =>
     let images := images request in
     if (length images =? 0)%nat then
       ret {| status := 400; body := Error "No images provided" |}
     else if promptMissing (backgroundPrompt request) then
       ret {| status := 400; body := Error "Background prompt is required" |}
     else if (100 <? length images)%nat then
       ret {| status := 400; body := Error "Maximum 100 images per job" |}
     else
     let backgroundPrompt := default EmptyString (backgroundPrompt request) in
     let! user := prisma.user_findUnique sessionUserId in
     match user with
     | None => ret {| status := 404; body := Error "User not found" |}
     | Some user =>
     let userId := sessionUserId in
     let totalCredits := calculateBatchCredits (length images) in
     let discount := discountPercent (length images) in
     if negb (hasEnoughCredits (User.creditsBalance user) totalCredits) then
       ret {| status := 402;
              body := InsufficientCredits totalCredits (User.creditsBalance user) |}
     else
     let! imageUrls := uploadImages jobId 0 images [] in
     let! deductResult :=
       CreditService.deductCredits userId totalCredits jobId
         (reservationText totalCredits (length images) discount) in
     if negb (CreditService.success deductResult) then
       ret {| status := 402;
              body := InsufficientCredits totalCredits
                        (CreditService.newBalance deductResult) |}
     else
     let! job :=
       prisma.job_create
         (newJob jobId userId backgroundPrompt imageUrls (length images)
                 totalCredits) in
     try_catch
       (do! lift (addJob {| queue_jobId := Job.id job;
                            queue_userId := userId;
                            queue_backgroundPrompt := backgroundPrompt;
                            queue_inputImages := imageUrls |}) in
        ret {| status := 201;
               body := Created {| summary_id := Job.id job;
                                  summary_status := Job.status job;
                                  summary_imageCount := Job.quantity job;
                                  summary_creditsReserved :=
                                    Job.creditsReserved job |} |})
       (fun queueError =>
          do! CreditService.refundCredits userId totalCredits jobId queueFailure in
          do! prisma.job_update jobId markFailed in
          ret {| status := 500; body := Error queueFailure |})
     end
     end)
    (fun error =>
       ret {| status := 500;
              body := Error "An error occurred while creating the job" |}).

End Handler.

End JobsRoute.

(* ===================================================================== *)
(** ** Two overlapping [deductCredits] calls *)
(* ===================================================================== *)

(** [deductCredits] suspends at each [await]; another request may run
    while it is suspended.  A call in flight is a task that remembers
    the locals computed so far; one step performs the pending database
    action and runs the synchronous code up to the next [await]. *)
Module Interleaving.

Import CreditService.

Record Call := {
  userId : string;
  amount : Z;
  jobId : string;
  description : string
}.

Inductive Task :=
| AwaitFind                                    (* at [prisma.user.findUnique] *)
| AwaitUpdate (newBalance newUsedThisMonth : Z) (* at [prisma.user.update] *)
| AwaitCreate (newBalance : Z)        (* at [prisma.creditTransaction.create] *)
| Settled (result : outcome DeductResult).

Definition step (c : Call) (t : Task) (db : Db) : Task * Db :=
  match t with
  | AwaitFind =>
      match users db !! userId c with
      | None => (Settled (Throw (user_not_found (userId c))), db)
      | Some user =>
          if User.creditsBalance user <? amount c then
            (Settled (Return {| success := false;
                                newBalance := User.creditsBalance user;
                                insufficientCredits := true |}), db)
          else
            (AwaitUpdate (User.creditsBalance user - amount c)
                         (User.creditsUsedThisMonth user + amount c), db)
      end
  | AwaitUpdate newBalance newUsedThisMonth =>
      match prisma.user_update (userId c)
              (set_credits newBalance newUsedThisMonth) db with
      | (Return _, db') => (AwaitCreate newBalance, db')
      | (Throw e, db') => (Settled (Throw e), db')
      end
  | AwaitCreate newBalance =>
      match prisma.creditTransaction_create
              (usage_transaction (userId c) (amount c) (jobId c)
                                 (description c)) db with
      | (_, db') =>
          (Settled (Return {| success := true;
                              newBalance := newBalance;
                              insufficientCredits := false |}), db')
      end
  | Settled _ => (t, db)
  end.

(** Which of the two requests the event loop resumes next. *)
Inductive Turn := first | second.

Record Pair := { task1 : Task; task2 : Task; store : Db }.

Definition resume (c1 c2 : Call) (turn : Turn) (p : Pair) : Pair :=
  match turn with
  | first =>
      let '(t, db) := step c1 (task1 p) (store p) in
      {| task1 := t; task2 := task2 p; store := db |}
  | second =>
      let '(t, db) := step c2 (task2 p) (store p) in
      {| task1 := task1 p; task2 := t; store := db |}
  end.

Definition interleave (c1 c2 : Call) (schedule : list Turn) (db : Db) : Pair :=
  foldl (fun p turn => resume c1 c2 turn p)
        {| task1 := AwaitFind; task2 := AwaitFind; store := db |} schedule.

Definition reportsSuccess (t : Task) : bool :=
  match t with
  | Settled (Return r) => success r
  | _ => false
  end.

End Interleaving.

(* ===================================================================== *)
(** ** Sequences of ledger operations on one account *)
(* ===================================================================== *)

Module Ledger.

Import CreditService.

Inductive Operation :=
| Reserve (amount : Z) (jobId description : string)
| Refund (amount : Z) (jobId reason : string)
| Purchase (credits : Z) (stripePaymentIntentId : string)
| MonthlyReset (now : Z)
| TierChange (newTier : Pricing.TierName).

Definition perform (userId : string) (op : Operation) : M unit :=
  match op with
  | Reserve amount jobId description =>
      let! result := deductCredits userId amount jobId description in ret tt
  | Refund amount jobId reason => refundCredits userId amount jobId reason
  | Purchase credits payment => addAlaCarteCredits userId credits payment
  | MonthlyReset now =>
      let! result := resetMonthlyCredits now userId in ret tt
  | TierChange newTier => updateUserTier userId newTier
  end.

(** The operations run one after the other; one that throws leaves the
    database as it was at the throw and the next one still runs. *)
Fixpoint performAll (userId : string) (ops : list Operation) (db : Db) : Db :=
  match ops with
  | [] => db
  | op :: rest => performAll userId rest (snd (perform userId op db))
  end.

Definition transactionsOf (userId : string) (db : Db) : list CreditTransaction.t :=
  filter (fun tx => CreditTransaction.userId tx = userId) (creditTransactions db).

(** The sum of the signed amounts recorded for the account. *)
Definition ledgerSum (userId : string) (db : Db) : Z :=
  foldr Z.add 0 (CreditTransaction.amount <$> transactionsOf userId db).

Definition balanceOf (userId : string) (db : Db) : option Z :=
  User.creditsBalance <$> users db !! userId.

(** The balance found by a reset lies between zero and the rollover cap
    of the account's tier. *)
Definition withinCap (u : User.t) : bool :=
  (0 <=? User.creditsBalance u)
  && (User.creditsBalance u <=? Pricing.rolloverCap (Pricing.getTierConfig (User.tier u))).

(** Every monthly reset of the sequence finds such a balance. *)
Fixpoint resetsWithinCap (userId : string) (ops : list Operation) (db : Db) : bool :=
  match ops with
  | [] => true
  | op :: rest =>
      match op, users db !! userId with
      | MonthlyReset _, Some u => withinCap u
      | _, _ => true
      end
      && resetsWithinCap userId rest (snd (perform userId op db))
  end.

(** The account is in balance: its row exists and holds exactly the sum
    of its transactions. *)
Definition inBalance (userId : string) (db : Db) : Prop :=
  exists u, users db !! userId = Some u
            /\ User.creditsBalance u = ledgerSum userId db.

(** Reserve requests served one after the other, none overlapping
    another: the total amount of those that report success, and the
    database they leave. *)
Fixpoint reserveAll (userId : string) (amounts : list Z) (db : Db) : Z * Db :=
  match amounts with
  | [] => (0, db)
  | amount :: rest =>
      let '(r, db1) := deductCredits userId amount "job" "reserve" db in
      let '(granted, db2) := reserveAll userId rest db1 in
      (match r with
       | Return res => if success res then amount + granted else granted
       | Throw _ => granted
       end, db2)
  end.

(** The row an operation leaves, as a function of the row it finds: a
    summary of the five service operations, related to them by
    [perform_effect] below. *)
Definition rowAfter (op : Operation) (u : User.t) : User.t :=
  match op with
  | Reserve amount _ _ =>
      if User.creditsBalance u <? amount then u
      else set_credits (User.creditsBalance u - amount)
                       (User.creditsUsedThisMonth u + amount) u
  | Refund amount _ _ =>
      set_credits (User.creditsBalance u + amount)
                  (Z.max 0 (User.creditsUsedThisMonth u - amount)) u
  | Purchase credits _ => set_balance (User.creditsBalance u + credits) u
  | MonthlyReset now =>
      let tierConfig := Pricing.getTierConfig (User.tier u) in
      {| User.tier := User.tier u;
         User.creditsBalance :=
           Pricing.calculateRollover (User.creditsBalance u)
             (Pricing.monthlyCredits tierConfig) (Pricing.rolloverCap tierConfig);
         User.creditsUsedThisMonth := 0;
         User.lastCreditReset := now;
         User.monthlyCredits := Pricing.monthlyCredits tierConfig;
         User.rolloverCap := Pricing.rolloverCap tierConfig |}
  | TierChange newTier =>
      let tierConfig := Pricing.getTierConfig newTier in
      {| User.tier := newTier;
         User.creditsBalance := User.creditsBalance u;
         User.creditsUsedThisMonth := User.creditsUsedThisMonth u;
         User.lastCreditReset := User.lastCreditReset u;
         User.monthlyCredits := Pricing.monthlyCredits tierConfig;
         User.rolloverCap := Pricing.rolloverCap tierConfig |}
  end.

(** The operation moves a positive number of credits, as its callers
    pass it; resets and tier changes carry no amount. *)
Definition positiveAmount (op : Operation) : bool :=
  match op with
  | Reserve amount _ _ | Refund amount _ _ | Purchase amount _ => 0 <? amount
  | MonthlyReset _ | TierChange _ => true
  end.

(** The allocation and cap stored on the row are those of its tier. *)
Definition inSync (u : User.t) : bool :=
  (User.monthlyCredits u =? Pricing.monthlyCredits (Pricing.getTierConfig (User.tier u)))
  && (User.rolloverCap u =? Pricing.rolloverCap (Pricing.getTierConfig (User.tier u))).

End Ledger.

(* ===================================================================== *)
(** ** The batch price ([@/lib/pricing], not part of the sources) *)
(* ===================================================================== *)

Module BatchPricing.

(** Modelled from the spec: the discount schedule of
    [calculateBatchCredits], whose module [@/lib/pricing] is missing.
    The spec describes "a volume-discount schedule over breakpoints
    (e.g., base per-unit cost with declining marginal rate past defined
    thresholds)": a base rate per image and, past each threshold, a
    lower rate for the further images. *)
Record Breakpoint := { threshold : nat; rate : Z }.

(** Modelled from the spec: the schedule of [@/lib/pricing] (missing),
    "base per-unit cost" and the breakpoints past which it declines. *)
Record Schedule := { baseRate : Z; breakpoints : list Breakpoint }.

(** Modelled from the spec: the "marginal rate past defined
    thresholds" of the missing [@/lib/pricing].  The rate charged for
    the image of index [unit] (from 0) is the rate of the last
    threshold it is past, the base rate when it is past none. *)
Fixpoint marginalRate (current : Z) (bps : list Breakpoint) (unit : nat) : Z :=
  match bps with
  | [] => current
  | bp :: rest =>
      if (threshold bp <=? unit)%nat then marginalRate (rate bp) rest unit
      else current
  end.

(** Modelled from the spec: [computeCost(quantity) -> totalCredits]
    ([calculateBatchCredits], missing from the sources): the sum of
    the marginal rates of the images of the batch. *)
Fixpoint calculateBatchCredits (s : Schedule) (quantity : nat) : Z :=
  match quantity with
  | O => 0
  | S q => calculateBatchCredits s q + marginalRate (baseRate s) (breakpoints s) q
  end.

(** Modelled from the spec: the "declining marginal rate" of the
    schedule of the missing [@/lib/pricing]: no rate is negative and
    each breakpoint lowers (or keeps) the rate before it. *)
Fixpoint declining (current : Z) (bps : list Breakpoint) : bool :=
  match bps with
  | [] => 0 <=? current
  | bp :: rest => (rate bp <=? current) && declining (rate bp) rest
  end.

(** Modelled from the spec: what makes a schedule of the missing
    [@/lib/pricing] a "volume-discount schedule". *)
Definition discountSchedule (s : Schedule) : bool :=
  declining (baseRate s) (breakpoints s).

(** Modelled from the spec: [computeCost(q) / q], the "average per-unit
    cost" of the missing [calculateBatchCredits], as a rational number
    (for [q] above zero). *)
Definition averageCost (s : Schedule) (quantity : nat) : Q :=
  (calculateBatchCredits s quantity # Pos.of_nat quantity)%Q.

End BatchPricing.

(* ===================================================================== *)
(** ** Predicates used in the statements *)
(* ===================================================================== *)

(** The message the reset run records for an id without an account. *)
Definition notFoundReport (userId : string) : string :=
  "User " +:+ userId +:+ ": User not found: " +:+ userId.

(** The text holds no dot. *)
Fixpoint dotFree (s : string) : bool :=
  match s with
  | EmptyString => true
  | String c rest => negb (Ascii.eqb c "."%char) && dotFree rest
  end.

(* ===================================================================== *)
(** ** Sample data *)
(* ===================================================================== *)

(** A small store used to exercise the statements: one starter account
    holding 100 credits, 20 of them used this month. *)
Definition alice : User.t :=
  {| User.tier := Pricing.starter;
     User.creditsBalance := 100;
     User.monthlyCredits := 100;
     User.rolloverCap := 50;
     User.creditsUsedThisMonth := 20;
     User.lastCreditReset := 1000 |}.

Definition sampleDb : Db :=
  {| users := {[ "alice" := alice ]}; creditTransactions := []; jobs := ∅ |}.

(** A fresh starter account: no credits granted, nothing recorded. *)
Definition bob : User.t :=
  {| User.tier := Pricing.starter;
     User.creditsBalance := 0;
     User.monthlyCredits := 100;
     User.rolloverCap := 50;
     User.creditsUsedThisMonth := 0;
     User.lastCreditReset := 0 |}.

Definition freshDb : Db :=
  {| users := {[ "bob" := bob ]}; creditTransactions := []; jobs := ∅ |}.

(** A submission of two images by the sample account, with
    collaborators standing in for the pricing helpers (one credit per
    image, no discount), the storage service (every upload succeeds)
    and a queue service that is down. *)
Definition submission : JobsRoute.Request :=
  {| JobsRoute.session_user := Some "alice";
     JobsRoute.images :=
       [ {| JobsRoute.file_name := "front.png";
            JobsRoute.file_type := "image/png";
            JobsRoute.file_bytes := "PNG1" |};
         {| JobsRoute.file_name := "back";
            JobsRoute.file_type := "image/jpeg";
            JobsRoute.file_bytes := "JPG2" |} ];
     JobsRoute.backgroundPrompt := Some " a beach at dusk " |}.

Definition onePerImage (quantity : nat) : Z := Z.of_nat quantity.

Definition noDiscount (quantity : nat) : Z := 0.

Definition covers (balance required : Z) : bool := required <=? balance.

Definition stored (buffer filename mimeType : string) : outcome string :=
  Return ("https://bucket/" +:+ filename).

Definition queueDown (job : JobsRoute.QueueJob) : outcome unit :=
  Throw "ECONNREFUSED".

(** Thirty days stand in for the calendar month of the scheduler. *)
Definition thirtyDaysBefore (instant : Z) : Z := instant - 2592000000.

Definition production : CronRoute.Env :=
  {| CronRoute.NODE_ENV := Some "production";
     CronRoute.CRON_SECRET := Some "s3cret" |}.

(** Three credits an image, two past the tenth, one past the fiftieth. *)
Definition threeTwoOne : BatchPricing.Schedule :=
  {| BatchPricing.baseRate := 3;
     BatchPricing.breakpoints :=
       [ {| BatchPricing.threshold := 10; BatchPricing.rate := 2 |};
         {| BatchPricing.threshold := 50; BatchPricing.rate := 1 |} ] |}.

(** The sample account next to the fresh one. *)
Definition twoAccounts : Db :=
  {| users := {[ "alice" := alice; "bob" := bob ]};
     creditTransactions := []; jobs := ∅ |}.

(** A day in the life of an account. *)
Definition busyDay : list Ledger.Operation :=
  [Ledger.Purchase 50 "pi_1"; Ledger.Reserve 30 "job-1" "batch";
   Ledger.MonthlyReset 5000; Ledger.Refund 30 "job-1" "failed";
   Ledger.TierChange Pricing.professional; Ledger.Reserve 1000 "job-2" "huge"].

Definition queueUp (job : JobsRoute.QueueJob) : outcome unit := Return tt.

Definition storageDown (buffer filename mimeType : string) : outcome string :=
  Throw "S3 unavailable".

Definition thousandPerImage (quantity : nat) : Z := 1000 * Z.of_nat quantity.

(** A free-tier account, and the three accounts together. *)
Definition dave : User.t :=
  {| User.tier := Pricing.free;
     User.creditsBalance := 5;
     User.monthlyCredits := 5;
     User.rolloverCap := 0;
     User.creditsUsedThisMonth := 0;
     User.lastCreditReset := 0 |}.

Definition threeAccounts : Db :=
  {| users := {[ "alice" := alice; "bob" := bob; "dave" := dave ]};
     creditTransactions := []; jobs := ∅ |}.

(** The text made of the given bytes. *)
Definition bytes (values : list N) : string :=
  foldr (fun b rest => String (ascii_of_N b) rest) EmptyString values.

(** A prompt of white space only: NO-BREAK SPACE, the byte order mark,
    LINE SEPARATOR, IDEOGRAPHIC SPACE, EM SPACE, a space and a tab. *)
Definition unicodeBlank : string :=
  bytes [194; 160;  239; 187; 191;  226; 128; 168;  227; 128; 128;
         226; 128; 131;  32;  9]%N.

(** A prompt of one accented letter between no-break spaces. *)
Definition paddedLetter : string :=
  bytes [194; 160;  195; 169;  194; 160]%N.

(** Two requests of 60 credits each against the 100 credits of the
    sample account, and an order in which the event loop may resume
    them: both look the account up before either writes. *)
Definition request1 : Interleaving.Call :=
  {| Interleaving.userId := "alice"; Interleaving.amount := 60;
     Interleaving.jobId := "job-1"; Interleaving.description := "first batch" |}.

Definition request2 : Interleaving.Call :=
  {| Interleaving.userId := "alice"; Interleaving.amount := 60;
     Interleaving.jobId := "job-2"; Interleaving.description := "second batch" |}.

Definition bothReadFirst : list Interleaving.Turn :=
  [Interleaving.first; Interleaving.second;
   Interleaving.first; Interleaving.first;
   Interleaving.second; Interleaving.second].

(* ===================================================================== *)
(** * Properties of the ledger operations *)
(* ===================================================================== *)

(** Unfolds one service operation down to the database actions. *)
Ltac run_service :=
  unfold CreditService.deductCredits, CreditService.refundCredits,
         CreditService.addAlaCarteCredits,
         CreditService.resetMonthlyCredits, CreditService.updateUserTier,
         bind, ret, throw,
         prisma.user_findUnique, prisma.user_update,
         prisma.creditTransaction_create;
  simpl.

Section LedgerOperations.

Import CreditService.

Lemma sampleDb_alice : users sampleDb !! "alice" = Some alice.
Proof. reflexivity. Qed.

(** *** What each operation computes on an existing account *)

Lemma deductCredits_covered
    (db : Db) (userId : string) (u : User.t) (amount : Z) (jobId description : string) :
  users db !! userId = Some u ->
  amount <= User.creditsBalance u ->
  deductCredits userId amount jobId description db =
    (Return {| success := true;
               newBalance := User.creditsBalance u - amount;
               insufficientCredits := false |},
     {| users := <[userId := set_credits (User.creditsBalance u - amount)
                               (User.creditsUsedThisMonth u + amount) u]> (users db);
        creditTransactions :=
          creditTransactions db ++ [usage_transaction userId amount jobId description];
        jobs := jobs db |}).
Proof.
  intros Hu Hle. run_service. rewrite Hu.
  destruct (Z.ltb_spec (User.creditsBalance u) amount) as [Hlt|_]; [lia|].
  simpl. rewrite Hu. reflexivity.
Qed.

Lemma deductCredits_short
    (db : Db) (userId : string) (u : User.t) (amount : Z) (jobId description : string) :
  users db !! userId = Some u ->
  User.creditsBalance u < amount ->
  deductCredits userId amount jobId description db =
    (Return {| success := false;
               newBalance := User.creditsBalance u;
               insufficientCredits := true |}, db).
Proof.
  intros Hu Hlt. run_service. rewrite Hu.
  destruct (Z.ltb_spec (User.creditsBalance u) amount) as [_|Hge]; [reflexivity|lia].
Qed.

Lemma refundCredits_run
    (db : Db) (userId : string) (u : User.t) (amount : Z) (jobId reason : string) :
  users db !! userId = Some u ->
  refundCredits userId amount jobId reason db =
    (Return tt,
     {| users := <[userId := set_credits (User.creditsBalance u + amount)
                               (Z.max 0 (User.creditsUsedThisMonth u - amount)) u]>
                   (users db);
        creditTransactions :=
          creditTransactions db ++ [refund_transaction userId amount jobId reason];
        jobs := jobs db |}).
Proof.
  intros Hu. run_service. rewrite Hu. simpl. rewrite Hu. reflexivity.
Qed.

Lemma missing_account_throws (db : Db) (userId : string) :
  users db !! userId = None ->
  (forall amount jobId description,
     deductCredits userId amount jobId description db
     = (Throw (user_not_found userId), db))
  /\ (forall amount jobId reason,
        refundCredits userId amount jobId reason db
        = (Throw (user_not_found userId), db))
  /\ (forall credits payment,
        addAlaCarteCredits userId credits payment db
        = (Throw (user_not_found userId), db))
  /\ (forall now,
        resetMonthlyCredits now userId db = (Throw (user_not_found userId), db))
  /\ (forall newTier, snd (updateUserTier userId newTier db) = db).
Proof.
  intros Hu. repeat split; intros; run_service; rewrite Hu; reflexivity.
Qed.

(** C1. On an existing account and for an amount above zero,
    [deductCredits] returns a result whose [success] flag is true
    exactly when the balance covers the amount.  On success the new
    balance is the old one less the amount, the account's row has its
    [creditsBalance] lowered and its [creditsUsedThisMonth] raised by
    the amount -- every other column and every other row as before --
    and one [usage] transaction of minus the amount, tagged with the
    job id, is appended.  On failure the result carries the current
    balance and the database is unchanged. *)
Theorem deductCredits_reserve
    (db : Db) (userId : string) (u : User.t)
    (amount : Z) (jobId description : string)
    (Haccount : users db !! userId = Some u)
    (Hamount : 0 < amount) :
  exists (res : DeductResult) (db' : Db),
    deductCredits userId amount jobId description db = (Return res, db')
    /\ (success res = true <-> amount <= User.creditsBalance u)
    /\ (success res = true ->
          newBalance res = User.creditsBalance u - amount
          /\ insufficientCredits res = false
          /\ (exists u' : User.t,
                users db' = <[userId := u']> (users db)
                /\ User.creditsBalance u' = User.creditsBalance u - amount
                /\ User.creditsUsedThisMonth u'
                   = User.creditsUsedThisMonth u + amount
                /\ User.tier u' = User.tier u
                /\ User.monthlyCredits u' = User.monthlyCredits u
                /\ User.rolloverCap u' = User.rolloverCap u
                /\ User.lastCreditReset u' = User.lastCreditReset u)
          /\ creditTransactions db' =
               creditTransactions db ++
               [{| CreditTransaction.userId := userId;
                   CreditTransaction.amount := - amount;
                   CreditTransaction.type := CreditTransaction.usage;
                   CreditTransaction.description := description;
                   CreditTransaction.jobId := Some jobId |}]
          /\ jobs db' = jobs db)
    /\ (success res = false ->
          newBalance res = User.creditsBalance u
          /\ insufficientCredits res = true
          /\ db' = db).
Proof.
  run_service. rewrite Haccount.
  destruct (User.creditsBalance u <? amount) eqn:Hcmp.
  - apply Z.ltb_lt in Hcmp.
    eexists _, _. split; [reflexivity|]. simpl.
    repeat split; try discriminate; try lia; auto.
  - apply Z.ltb_ge in Hcmp. simpl. rewrite Haccount.
    eexists _, _. split; [reflexivity|]. simpl.
    split; [split; [intros _; exact Hcmp | reflexivity]|].
    split; [|intros Hfalse; discriminate Hfalse].
    intros _. split; [reflexivity|]. split; [reflexivity|].
    split; [|split; reflexivity].
    eexists. split; [reflexivity|]. simpl. repeat split; reflexivity.
Qed.

Lemma deductCredits_reserve_witness :
  exists (res : DeductResult) (db' : Db) (u' : User.t),
    deductCredits "alice" 30 "job-1" "thirty" sampleDb = (Return res, db')
    /\ success res = true /\ newBalance res = 70
    /\ users db' !! "alice" = Some u'
    /\ User.creditsBalance u' = 70
    /\ User.creditsUsedThisMonth u' = 50
    /\ CreditTransaction.amount <$> creditTransactions db' = [-30].
Proof.
  destruct (deductCredits_reserve sampleDb "alice" alice 30 "job-1" "thirty"
              sampleDb_alice ltac:(lia))
    as (res & db' & Hrun & Hiff & Hok & _).
  assert (Hs : success res = true) by (apply Hiff; simpl; lia).
  destruct (Hok Hs) as (Hnew & _ & (u' & Husers & Hbal & Hused & _) & Htxs & _).
  exists res, db', u'.
  split; [exact Hrun|]. split; [exact Hs|]. split; [exact Hnew|].
  split; [rewrite Husers; apply lookup_insert_eq|].
  split; [exact Hbal|]. split; [exact Hused|].
  rewrite Htxs. reflexivity.
Defined.

(** C3. [resetMonthlyCredits] on an existing account computes
    rollover = min(max(previousBalance, 0), rolloverCap) and sets the
    balance to monthlyCredits + rollover, the allocation and the cap
    being those of the account's tier; it sets [creditsUsedThisMonth]
    to 0 and [lastCreditReset] to the current instant, and appends
    exactly one [monthly_reset] transaction of amount monthlyCredits.
    With balance 10, monthlyCredits 100 and cap 50 the new balance is
    110; with balance 80 the rollover is capped at 50 and the new
    balance is 150. *)
Theorem resetMonthlyCredits_formula
    (db : Db) (userId : string) (u : User.t) (now : Z)
    (Haccount : users db !! userId = Some u) :
  let cfg := Pricing.getTierConfig (User.tier u) in
  let rollover :=
    Z.min (Z.max (User.creditsBalance u) 0) (Pricing.rolloverCap cfg) in
  (exists (res : ResetResult) (db' : Db) (tx : CreditTransaction.t),
     resetMonthlyCredits now userId db = (Return res, db')
     /\ reset_success res = true
     /\ previousBalance res = User.creditsBalance u
     /\ rolledOverAmount res = rollover
     /\ reset_newBalance res = Pricing.monthlyCredits cfg + rollover
     /\ reset_monthlyCredits res = Pricing.monthlyCredits cfg
     /\ users db' !! userId =
          Some {| User.tier := User.tier u;
                  User.creditsBalance := Pricing.monthlyCredits cfg + rollover;
                  User.monthlyCredits := Pricing.monthlyCredits cfg;
                  User.rolloverCap := Pricing.rolloverCap cfg;
                  User.creditsUsedThisMonth := 0;
                  User.lastCreditReset := now |}
     /\ creditTransactions db' = creditTransactions db ++ [tx]
     /\ CreditTransaction.userId tx = userId
     /\ CreditTransaction.type tx = CreditTransaction.monthly_reset
     /\ CreditTransaction.amount tx = Pricing.monthlyCredits cfg
     /\ jobs db' = jobs db)
  /\ Pricing.calculateRollover 10 100 50 = 110
  /\ Z.min (Z.max 80 0) 50 = 50
  /\ Pricing.calculateRollover 80 100 50 = 150.
Proof.
  intros cfg rollover. split; [|repeat split].
  run_service. rewrite Haccount. simpl. rewrite Haccount.
  eexists _, _, _. split; [reflexivity|]. simpl.
  unfold Pricing.calculateRollover. fold cfg.
  rewrite (Z.max_comm 0). fold rollover.
  rewrite lookup_insert_eq.
  repeat split; reflexivity.
Qed.

Lemma resetMonthlyCredits_formula_witness :
  users sampleDb !! "alice" = Some alice
  /\ exists res db' tx,
       resetMonthlyCredits 5000 "alice" sampleDb = (Return res, db')
       /\ reset_newBalance res = 150
       /\ creditTransactions db' = [tx]
       /\ CreditTransaction.amount tx = 100.
Proof.
  split; [reflexivity|].
  destruct (resetMonthlyCredits_formula sampleDb "alice" alice 5000 sampleDb_alice)
    as [(res & db' & tx & Hrun & _ & _ & _ & Hnew & _ & _ & Htxs & _ & _ & Hamt & _) _].
  exists res, db', tx. repeat split; assumption.
Defined.

(** C10. [updateUserTier] on an existing account rewrites only the
    [tier], [monthlyCredits] and [rolloverCap] columns of that account
    and appends one [tier_change] transaction of amount zero; the
    account's [creditsBalance], [creditsUsedThisMonth] and
    [lastCreditReset] keep their values, and so do all other rows. *)
Theorem updateUserTier_frame
    (db : Db) (userId : string) (u : User.t) (newTier : Pricing.TierName)
    (Haccount : users db !! userId = Some u) :
  exists (db' : Db) (u' : User.t) (tx : CreditTransaction.t),
    updateUserTier userId newTier db = (Return tt, db')
    /\ users db' = <[userId := u']> (users db)
    /\ User.tier u' = newTier
    /\ User.monthlyCredits u' =
         Pricing.monthlyCredits (Pricing.getTierConfig newTier)
    /\ User.rolloverCap u' =
         Pricing.rolloverCap (Pricing.getTierConfig newTier)
    /\ User.creditsBalance u' = User.creditsBalance u
    /\ User.creditsUsedThisMonth u' = User.creditsUsedThisMonth u
    /\ User.lastCreditReset u' = User.lastCreditReset u
    /\ creditTransactions db' = creditTransactions db ++ [tx]
    /\ CreditTransaction.userId tx = userId
    /\ CreditTransaction.type tx = CreditTransaction.tier_change
    /\ CreditTransaction.amount tx = 0
    /\ jobs db' = jobs db.
Proof.
  run_service. rewrite Haccount.
  eexists _, _, _. split; [reflexivity|]. simpl.
  repeat split; reflexivity.
Qed.

Lemma updateUserTier_frame_witness :
  users sampleDb !! "alice" = Some alice
  /\ exists db' u' tx,
       updateUserTier "alice" Pricing.enterprise sampleDb = (Return tt, db')
       /\ users db' = <["alice" := u']> (users sampleDb)
       /\ User.rolloverCap u' = 500
       /\ User.creditsBalance u' = 100
       /\ creditTransactions db' = [tx].
Proof.
  split; [reflexivity|].
  destruct (updateUserTier_frame sampleDb "alice" alice Pricing.enterprise
              sampleDb_alice)
    as (db' & u' & tx & Hrun & Hu & _ & _ & Hcap & Hbal & _ & _ & Htx & _).
  exists db', u', tx. repeat split; assumption.
Defined.

(** C5. [refundCredits] on an existing account, for an amount above
    zero, always succeeds: it raises the balance by the amount, lowers
    [creditsUsedThisMonth] to max(0, creditsUsedThisMonth - amount) --
    floored at zero, never negative -- and appends one [refund]
    transaction of plus the amount tagged with the job id.  It clamps
    instead of failing when [creditsUsedThisMonth] is below the
    amount. *)
Theorem refundCredits_clamps
    (db : Db) (userId : string) (u : User.t)
    (amount : Z) (jobId reason : string)
    (Haccount : users db !! userId = Some u)
    (Hamount : 0 < amount) :
  exists (db' : Db) (u' : User.t) (tx : CreditTransaction.t),
    refundCredits userId amount jobId reason db = (Return tt, db')
    /\ users db' = <[userId := u']> (users db)
    /\ User.creditsBalance u' = User.creditsBalance u + amount
    /\ User.creditsUsedThisMonth u' =
         Z.max 0 (User.creditsUsedThisMonth u - amount)
    /\ 0 <= User.creditsUsedThisMonth u'
    /\ (User.creditsUsedThisMonth u < amount -> User.creditsUsedThisMonth u' = 0)
    /\ User.tier u' = User.tier u
    /\ User.monthlyCredits u' = User.monthlyCredits u
    /\ User.rolloverCap u' = User.rolloverCap u
    /\ User.lastCreditReset u' = User.lastCreditReset u
    /\ creditTransactions db' = creditTransactions db ++ [tx]
    /\ CreditTransaction.userId tx = userId
    /\ CreditTransaction.type tx = CreditTransaction.refund
    /\ CreditTransaction.amount tx = amount
    /\ CreditTransaction.jobId tx = Some jobId
    /\ jobs db' = jobs db.
Proof.
  run_service. rewrite Haccount. simpl. rewrite Haccount.
  eexists _, _, _. split; [reflexivity|]. simpl.
  repeat split; try reflexivity; intros; unfold set_credits; simpl; lia.
Qed.

Lemma refundCredits_clamps_witness :
  users sampleDb !! "alice" = Some alice
  /\ 0 < 30
  /\ exists db' u' tx,
       refundCredits "alice" 30 "job-1" "late" sampleDb = (Return tt, db')
       /\ users db' = <["alice" := u']> (users sampleDb)
       /\ User.creditsBalance u' = 130
       /\ User.creditsUsedThisMonth u' = 0
       /\ creditTransactions db' = [tx]
       /\ CreditTransaction.amount tx = 30.
Proof.
  split; [reflexivity|]. split; [lia|].
  destruct (refundCredits_clamps sampleDb "alice" alice 30 "job-1" "late"
              sampleDb_alice ltac:(lia))
    as (db' & u' & tx & Hrun & Hu & Hbal & Hused & _ & _ & _ & _ & _ & _
        & Htx & _ & _ & Hamt & _).
  exists db', u', tx. repeat split; assumption.
Defined.

(** C6. On an account whose [creditsUsedThisMonth] is not negative (the
    range the data model gives that column), a successful
    [deductCredits] of an amount above zero followed by a
    [refundCredits] of the same amount restores the balance and
    [creditsUsedThisMonth] -- in fact the whole user table -- to their
    values before the reservation. *)
Theorem reserve_then_refund_restores
    (db db1 : Db) (userId : string) (u : User.t)
    (amount : Z) (jobId description reason : string) (res : DeductResult)
    (Haccount : users db !! userId = Some u)
    (Hused : 0 <= User.creditsUsedThisMonth u)
    (Hamount : 0 < amount)
    (Hreserve : deductCredits userId amount jobId description db = (Return res, db1))
    (Hsuccess : success res = true) :
  exists (db2 : Db) (u2 : User.t),
    refundCredits userId amount jobId reason db1 = (Return tt, db2)
    /\ users db2 !! userId = Some u2
    /\ User.creditsBalance u2 = User.creditsBalance u
    /\ User.creditsUsedThisMonth u2 = User.creditsUsedThisMonth u
    /\ users db2 = users db.
Proof.
  revert Hreserve. run_service. rewrite Haccount.
  destruct (User.creditsBalance u <? amount) eqn:Hcmp.
  - intros [= <- <-]. discriminate.
  - simpl. rewrite Haccount. intros [= <- <-]. simpl.
    rewrite lookup_insert_eq. simpl. rewrite lookup_insert_eq. simpl.
    assert (Hu : set_credits
                   (User.creditsBalance u - amount + amount)
                   (Z.max 0 (User.creditsUsedThisMonth u + amount - amount))
                   (set_credits (User.creditsBalance u - amount)
                      (User.creditsUsedThisMonth u + amount) u) = u).
    { destruct u as [t b m c used l]. unfold set_credits. simpl in *. f_equal; lia. }
    rewrite Hu, insert_insert_eq, insert_id by exact Haccount.
    exists (with_creditTransactions
              ((creditTransactions db
                ++ [usage_transaction userId amount jobId description])
               ++ [refund_transaction userId amount jobId reason])
              db), u.
    destruct db; auto.
Qed.

Lemma reserve_then_refund_restores_witness :
  exists db2 u2,
    refundCredits "alice" 30 "job-1" "late"
      (snd (deductCredits "alice" 30 "job-1" "thirty" sampleDb)) = (Return tt, db2)
    /\ users db2 !! "alice" = Some u2
    /\ User.creditsBalance u2 = 100
    /\ User.creditsUsedThisMonth u2 = 20
    /\ users db2 = users sampleDb.
Proof.
  exact (reserve_then_refund_restores sampleDb _ "alice" alice 30
           "job-1" "thirty" "late" _
           sampleDb_alice ltac:(simpl; lia) ltac:(lia) eq_refl eq_refl).
Defined.

End LedgerOperations.

(* ===================================================================== *)
(** * Overlapping reservations *)
(* ===================================================================== *)

Section Overlap.

Import CreditService Interleaving.

(** The task model agrees with the function: a call that is resumed
    three times with nothing in between does what [deductCredits]
    does. *)
Lemma step_alone (c : Call) (db : Db) :
  let '(t1, db1) := step c AwaitFind db in
  let '(t2, db2) := step c t1 db1 in
  let '(t3, db3) := step c t2 db2 in
  t3 = Settled (fst (deductCredits (userId c) (amount c) (jobId c)
                       (description c) db))
  /\ db3 = snd (deductCredits (userId c) (amount c) (jobId c)
                  (description c) db).
Proof.
  run_service. unfold step.
  destruct (users db !! userId c) as [u|] eqn:Hu; [|split; reflexivity].
  destruct (User.creditsBalance u <? amount c); [split; reflexivity|].
  unfold prisma.user_update, prisma.creditTransaction_create.
  rewrite Hu. simpl. split; reflexivity.
Qed.

(** C2 at a concrete input.  Two overlapping [deductCredits] calls of
    60 credits each on an account holding 100: resumed in the order
    [bothReadFirst], both report success although 60 + 60 exceeds the
    balance.  The account is left with 40 credits while the two usage
    transactions record 120 credits reserved. *)
Theorem overlapping_reserves_both_succeed :
  let final := interleave request1 request2 bothReadFirst sampleDb in
  Ledger.balanceOf "alice" sampleDb = Some 100
  /\ reportsSuccess (task1 final) = true
  /\ reportsSuccess (task2 final) = true
  /\ 100 < amount request1 + amount request2
  /\ Ledger.balanceOf "alice" (store final) = Some 40
  /\ CreditTransaction.amount <$> creditTransactions (store final) = [-60; -60].
Proof.
  vm_compute. repeat split; reflexivity.
Qed.

(** The same happens on every account: whenever each of two requests
    is covered by the balance on its own, the order [bothReadFirst]
    lets both succeed, whatever their combined amount. *)
Lemma both_succeed_when_each_is_covered
    (c1 c2 : Call) (db : Db) (u : User.t) :
  userId c1 = userId c2 ->
  users db !! userId c1 = Some u ->
  amount c1 <= User.creditsBalance u ->
  amount c2 <= User.creditsBalance u ->
  let final := interleave c1 c2 bothReadFirst db in
  reportsSuccess (task1 final) = true
  /\ reportsSuccess (task2 final) = true
  /\ Ledger.balanceOf (userId c1) (store final)
     = Some (User.creditsBalance u - amount c2).
Proof.
  intros Hsame Hu H1 H2.
  unfold interleave, bothReadFirst. cbn [foldl].
  set (b := User.creditsBalance u). set (used := User.creditsUsedThisMonth u).
  assert (Hfind1 : forall t2,
            resume c1 c2 first {| task1 := AwaitFind; task2 := t2; store := db |}
            = {| task1 := AwaitUpdate (b - amount c1) (used + amount c1);
                 task2 := t2; store := db |}).
  { intros t2. unfold resume. simpl. rewrite Hu. fold b.
    destruct (Z.ltb_spec b (amount c1)) as [?|_]; [lia|reflexivity]. }
  assert (Hfind2 : forall t1,
            resume c1 c2 second {| task1 := t1; task2 := AwaitFind; store := db |}
            = {| task1 := t1;
                 task2 := AwaitUpdate (b - amount c2) (used + amount c2);
                 store := db |}).
  { intros t1. unfold resume. simpl. rewrite <- Hsame, Hu. fold b.
    destruct (Z.ltb_spec b (amount c2)) as [?|_]; [lia|reflexivity]. }
  rewrite Hfind1, Hfind2.
  unfold resume, Ledger.balanceOf. simpl.
  do 3 (unfold prisma.user_update, prisma.creditTransaction_create; simpl;
        rewrite <- ?Hsame, ?Hu, ?lookup_insert_eq; simpl).
  repeat split.
Qed.

(** Served one after the other, reservations of positive amounts never
    grant more than the balance they started from: what is granted is
    exactly what the balance went down by, and the balance stays at or
    above zero. *)
Lemma reserveAll_granted (userId : string) (amounts : list Z) :
  forall (db : Db) (u : User.t),
    users db !! userId = Some u ->
    Forall (fun a => 0 < a) amounts ->
    0 <= User.creditsBalance u ->
    exists u',
      users (snd (Ledger.reserveAll userId amounts db)) !! userId = Some u'
      /\ 0 <= User.creditsBalance u'
      /\ fst (Ledger.reserveAll userId amounts db)
         = User.creditsBalance u - User.creditsBalance u'.
Proof.
  induction amounts as [|a rest IH]; intros db u Hu Hpos Hbal.
  - exists u. simpl. repeat split; [exact Hu | exact Hbal | lia].
  - inversion Hpos as [|? ? Ha Hrest]; subst. simpl.
    destruct (Z.le_gt_cases a (User.creditsBalance u)) as [Hle|Hgt].
    + rewrite (deductCredits_covered db userId u a _ _ Hu Hle).
      destruct (IH {| users := <[userId := set_credits (User.creditsBalance u - a)
                                   (User.creditsUsedThisMonth u + a) u]> (users db);
                      creditTransactions :=
                        creditTransactions db
                        ++ [usage_transaction userId a "job" "reserve"];
                      jobs := jobs db |}
                   (set_credits (User.creditsBalance u - a)
                      (User.creditsUsedThisMonth u + a) u))
        as (u' & Hu' & Hb' & Hsum).
      { apply lookup_insert_eq. }
      { exact Hrest. }
      { simpl. lia. }
      destruct (Ledger.reserveAll userId rest _) as [granted db2].
      simpl in *. exists u'. repeat split; [exact Hu' | exact Hb' | lia].
    + rewrite (deductCredits_short db userId u a _ _ Hu Hgt).
      destruct (IH db u Hu Hrest Hbal) as (u' & Hu' & Hb' & Hsum).
      destruct (Ledger.reserveAll userId rest db) as [granted db2].
      simpl in *. exists u'. repeat split; [exact Hu' | exact Hb' | lia].
Qed.

End Overlap.

(* ===================================================================== *)
(** * The balance and the sum of the recorded transactions *)
(* ===================================================================== *)

Section LedgerSum.

Import CreditService Ledger.

Lemma ledgerSum_append (userId : string) (db : Db) (tx : CreditTransaction.t)
    (m : gmap string User.t) :
  ledgerSum userId
    {| users := m; creditTransactions := creditTransactions db ++ [tx];
       jobs := jobs db |}
  = ledgerSum userId db
    + (if decide (CreditTransaction.userId tx = userId)
       then CreditTransaction.amount tx else 0).
Proof.
  unfold ledgerSum, transactionsOf. simpl.
  rewrite filter_app, fmap_app, foldr_app.
  generalize (CreditTransaction.amount
                <$> filter (fun t => CreditTransaction.userId t = userId)
                      (creditTransactions db)).
  intros l. rewrite filter_cons, filter_nil.
  destruct (decide (CreditTransaction.userId tx = userId)); simpl;
    induction l as [|x l IHl]; simpl; lia.
Qed.

Lemma addAlaCarteCredits_run
    (db : Db) (userId : string) (u : User.t) (credits : Z) (payment : string) :
  users db !! userId = Some u ->
  exists tx,
    addAlaCarteCredits userId credits payment db =
      (Return tt,
       {| users := <[userId := set_balance (User.creditsBalance u + credits) u]>
                     (users db);
          creditTransactions := creditTransactions db ++ [tx];
          jobs := jobs db |})
    /\ CreditTransaction.userId tx = userId
    /\ CreditTransaction.amount tx = credits
    /\ CreditTransaction.type tx = CreditTransaction.purchase.
Proof.
  intros Hu. run_service. rewrite Hu. simpl. rewrite Hu.
  eexists. split; [reflexivity|]. repeat split.
Qed.

Lemma resetMonthlyCredits_run
    (db : Db) (userId : string) (u : User.t) (now : Z) :
  users db !! userId = Some u ->
  exists res u' tx,
    resetMonthlyCredits now userId db =
      (Return res,
       {| users := <[userId := u']> (users db);
          creditTransactions := creditTransactions db ++ [tx];
          jobs := jobs db |})
    /\ User.creditsBalance u' =
         Pricing.calculateRollover (User.creditsBalance u)
           (Pricing.monthlyCredits (Pricing.getTierConfig (User.tier u)))
           (Pricing.rolloverCap (Pricing.getTierConfig (User.tier u)))
    /\ User.tier u' = User.tier u
    /\ User.creditsUsedThisMonth u' = 0
    /\ User.lastCreditReset u' = now
    /\ CreditTransaction.userId tx = userId
    /\ CreditTransaction.amount tx =
         Pricing.monthlyCredits (Pricing.getTierConfig (User.tier u))
    /\ CreditTransaction.type tx = CreditTransaction.monthly_reset.
Proof.
  intros Hu. run_service. rewrite Hu. simpl. rewrite Hu.
  eexists _, _, _. split; [reflexivity|]. repeat split.
Qed.

Lemma updateUserTier_run
    (db : Db) (userId : string) (u : User.t) (newTier : Pricing.TierName) :
  users db !! userId = Some u ->
  exists u' tx,
    updateUserTier userId newTier db =
      (Return tt,
       {| users := <[userId := u']> (users db);
          creditTransactions := creditTransactions db ++ [tx];
          jobs := jobs db |})
    /\ User.creditsBalance u' = User.creditsBalance u
    /\ User.creditsUsedThisMonth u' = User.creditsUsedThisMonth u
    /\ User.tier u' = newTier
    /\ CreditTransaction.userId tx = userId
    /\ CreditTransaction.amount tx = 0
    /\ CreditTransaction.type tx = CreditTransaction.tier_change.
Proof.
  intros Hu. run_service. rewrite Hu.
  eexists _, _. split; [reflexivity|]. repeat split.
Qed.

(** One operation keeps the account in balance, a monthly reset under
    the proviso that the balance it finds is within the rollover cap. *)
Lemma perform_inBalance (userId : string) (op : Operation) (db : Db) :
  inBalance userId db ->
  resetsWithinCap userId [op] db = true ->
  inBalance userId (snd (perform userId op db)).
Proof.
  intros (u & Hu & Hbal) Hcap. unfold inBalance.
  destruct op as [amount jobId description | amount jobId reason
                 | credits payment | now | newTier]; simpl.
  - unfold bind.
    destruct (Z.le_gt_cases amount (User.creditsBalance u)) as [Hle|Hgt].
    + rewrite (deductCredits_covered db userId u amount _ _ Hu Hle). simpl.
      eexists. split; [apply lookup_insert_eq|].
      rewrite ledgerSum_append. simpl. rewrite decide_True by reflexivity. lia.
    + rewrite (deductCredits_short db userId u amount _ _ Hu Hgt). simpl.
      exists u. split; assumption.
  - rewrite (refundCredits_run db userId u amount _ _ Hu). simpl.
    eexists. split; [apply lookup_insert_eq|].
    rewrite ledgerSum_append. simpl. rewrite decide_True by reflexivity. lia.
  - destruct (addAlaCarteCredits_run db userId u credits payment Hu)
      as (tx & -> & Hid & Hamt & _). simpl.
    eexists. split; [apply lookup_insert_eq|].
    rewrite ledgerSum_append, decide_True by exact Hid. simpl. lia.
  - unfold bind.
    destruct (resetMonthlyCredits_run db userId u now Hu)
      as (res & u' & tx & -> & Hb & _ & _ & _ & Hid & Hamt & _). simpl.
    exists u'. split; [apply lookup_insert_eq|].
    rewrite ledgerSum_append, decide_True by exact Hid.
    rewrite Hb, Hamt. simpl in Hcap. rewrite Hu in Hcap.
    unfold withinCap in Hcap.
    apply andb_prop in Hcap as [Hcap _].
    apply andb_prop in Hcap as [H0 H1].
    apply Z.leb_le in H0, H1.
    unfold Pricing.calculateRollover. lia.
  - destruct (updateUserTier_run db userId u newTier Hu)
      as (u' & tx & -> & Hb & _ & _ & Hid & Hamt & _). simpl.
    exists u'. split; [apply lookup_insert_eq|].
    rewrite ledgerSum_append, decide_True by exact Hid. lia.
Qed.

(** C4 (as amended).  For every account in balance -- a new account
    with no credits and no transactions is -- and every sequence of
    reserve, refund, purchase, monthly reset and tier change operations
    in which each monthly reset finds a balance between zero and the
    rollover cap of the tier, the balance after the sequence equals the
    sum of the signed amounts of the transactions recorded for the
    account. *)
Theorem balance_is_ledger_sum
    (userId : string) (ops : list Operation) (db : Db) (u : User.t)
    (Haccount : users db !! userId = Some u)
    (Hstart : User.creditsBalance u = ledgerSum userId db)
    (Hresets : resetsWithinCap userId ops db = true) :
  balanceOf userId (performAll userId ops db)
  = Some (ledgerSum userId (performAll userId ops db)).
Proof.
  assert (Hin : inBalance userId db) by (exists u; split; assumption).
  clear u Haccount Hstart.
  revert db Hin Hresets.
  induction ops as [|op rest IH]; intros db Hin Hresets.
  - destruct Hin as (u & Hu & Hbal). unfold balanceOf. simpl.
    rewrite Hu. simpl. congruence.
  - simpl in Hresets. apply andb_prop in Hresets as [Hop Hrest].
    simpl. apply IH; [|exact Hrest].
    apply perform_inBalance; [exact Hin|].
    simpl. rewrite Hop. reflexivity.
Qed.

Lemma balance_is_ledger_sum_witness :
  balanceOf "bob"
    (performAll "bob"
       [Purchase 40 "pi_1"; Reserve 15 "job-1" "batch"; MonthlyReset 5000;
        Refund 15 "job-1" "failed"; TierChange Pricing.professional]
       freshDb) = Some 140
  /\ ledgerSum "bob"
       (performAll "bob"
          [Purchase 40 "pi_1"; Reserve 15 "job-1" "batch"; MonthlyReset 5000;
           Refund 15 "job-1" "failed"; TierChange Pricing.professional]
          freshDb) = 140.
Proof.
  pose proof (balance_is_ledger_sum "bob"
    [Purchase 40 "pi_1"; Reserve 15 "job-1" "batch"; MonthlyReset 5000;
     Refund 15 "job-1" "failed"; TierChange Pricing.professional]
    freshDb bob eq_refl eq_refl eq_refl) as H.
  split; [|vm_compute; reflexivity].
  rewrite H. vm_compute. reflexivity.
Defined.

(** C4, as first stated, fails at a monthly reset that finds more than
    the rollover cap: a fresh starter account buys 80 credits and is
    then reset.  The reset keeps 50 of the 80 and grants 100, so the
    balance is 150, while the transactions sum to 80 + 100 = 180. *)
Lemma capped_reset_breaks_ledger_sum :
  let db := performAll "bob" [Purchase 80 "pi_1"; MonthlyReset 5000] freshDb in
  balanceOf "bob" freshDb = Some 0
  /\ ledgerSum "bob" freshDb = 0
  /\ balanceOf "bob" db = Some 150
  /\ ledgerSum "bob" db = 180
  /\ balanceOf "bob" db <> Some (ledgerSum "bob" db).
Proof.
  vm_compute. repeat split; try reflexivity. discriminate.
Qed.

(** [creditsUsedThisMonth] never goes below zero: an operation with a
    positive amount keeps it at or above zero. *)
Lemma perform_used_nonnegative
    (userId : string) (op : Operation) (db : Db) (u : User.t) :
  users db !! userId = Some u ->
  0 <= User.creditsUsedThisMonth u ->
  match op with
  | Reserve amount _ _ | Refund amount _ _ => 0 < amount
  | _ => True
  end ->
  exists u', users (snd (perform userId op db)) !! userId = Some u'
             /\ 0 <= User.creditsUsedThisMonth u'.
Proof.
  intros Hu Hused Hamount.
  destruct op as [amount jobId description | amount jobId reason
                 | credits payment | now | newTier]; simpl.
  - unfold bind.
    destruct (Z.le_gt_cases amount (User.creditsBalance u)) as [Hle|Hgt].
    + rewrite (deductCredits_covered db userId u amount _ _ Hu Hle). simpl.
      eexists. split; [apply lookup_insert_eq|]. simpl. lia.
    + rewrite (deductCredits_short db userId u amount _ _ Hu Hgt). simpl.
      exists u. split; assumption.
  - rewrite (refundCredits_run db userId u amount _ _ Hu). simpl.
    eexists. split; [apply lookup_insert_eq|]. simpl. lia.
  - destruct (addAlaCarteCredits_run db userId u credits payment Hu)
      as (tx & -> & _). simpl.
    eexists. split; [apply lookup_insert_eq|]. simpl. exact Hused.
  - unfold bind.
    destruct (resetMonthlyCredits_run db userId u now Hu)
      as (res & u' & tx & -> & _ & _ & Hzero & _). simpl.
    exists u'. split; [apply lookup_insert_eq|]. lia.
  - destruct (updateUserTier_run db userId u newTier Hu)
      as (u' & tx & -> & _ & Hsame & _). simpl.
    exists u'. split; [apply lookup_insert_eq|]. lia.
Qed.

End LedgerSum.

(* ===================================================================== *)
(** * Compensation when the queue dispatch fails *)
(* ===================================================================== *)

Section Compensation.

Import JobsRoute.

Variable calculateBatchCredits : nat -> Z.
Variable discountPercent : nat -> Z.
Variable hasEnoughCredits : Z -> Z -> bool.
Variable uploadBuffer : string -> string -> string -> outcome string.
Variable addJob : QueueJob -> outcome unit.

Let post := POST calculateBatchCredits discountPercent hasEnoughCredits
                 uploadBuffer addJob.

(** The upload loop never writes to the database. *)
Lemma uploadImages_db (jobId : string) (files : list File) :
  forall (i : nat) (acc : list string) (db : Db),
    snd (uploadImages uploadBuffer jobId i files acc db) = db.
Proof.
  induction files as [|file rest IH]; intros i acc db; simpl; [reflexivity|].
  unfold bind, lift.
  destruct (uploadBuffer _ _ _) as [url|e]; [apply IH | reflexivity].
Qed.

(** C7. A submission that passes validation, finds its account, passes
    the optimistic check, uploads its images and reserves its credits,
    and whose queue dispatch then fails: the handler answers 500 with
    the dispatch error, the job row exists with status [failed] and an
    error message, and the reservation is followed by a [refund]
    transaction of the full reserved amount tagged with the job id, so
    that the balance is back to what it was before the submission. *)
Theorem dispatch_failure_is_compensated
    (request : Request) (jobId userId : string) (db : Db) (u : User.t)
    (imageUrls : list string) (queueError : string)
    (Hsession : session_user request = Some userId)
    (Himages : (0 < length (images request) <= 100)%nat)
    (Hprompt : promptMissing (backgroundPrompt request) = false)
    (Haccount : users db !! userId = Some u)
    (Hcheck : hasEnoughCredits (User.creditsBalance u)
                (calculateBatchCredits (length (images request))) = true)
    (Huploads : fst (uploadImages uploadBuffer jobId 0 (images request) [] db)
                = Return imageUrls)
    (Hreserved : calculateBatchCredits (length (images request))
                 <= User.creditsBalance u)
    (Hfresh : jobs db !! jobId = None)
    (Hdispatch :
       addJob {| queue_jobId := jobId;
                 queue_userId := userId;
                 queue_backgroundPrompt :=
                   default EmptyString (backgroundPrompt request);
                 queue_inputImages := imageUrls |} = Throw queueError) :
  let totalCredits := calculateBatchCredits (length (images request)) in
  exists (db' : Db) (reservation refund : CreditTransaction.t)
         (job : Job.t) (u' : User.t),
    post request jobId db =
      (Return {| status := 500;
                 body := Error "Failed to queue job for processing" |}, db')
    /\ creditTransactions db' = creditTransactions db ++ [reservation; refund]
    /\ CreditTransaction.type reservation = CreditTransaction.usage
    /\ CreditTransaction.amount reservation = - totalCredits
    /\ CreditTransaction.jobId reservation = Some jobId
    /\ CreditTransaction.type refund = CreditTransaction.refund
    /\ CreditTransaction.amount refund = totalCredits
    /\ CreditTransaction.jobId refund = Some jobId
    /\ CreditTransaction.userId refund = userId
    /\ jobs db' !! jobId = Some job
    /\ Job.status job = Job.failed
    /\ Job.errorMessage job = Some "Failed to queue job for processing"
    /\ Job.creditsReserved job = totalCredits
    /\ CreditTransaction.amount refund = Job.creditsReserved job
    /\ users db' !! userId = Some u'
    /\ User.creditsBalance u' = User.creditsBalance u.
Proof.
  intros totalCredits. subst post totalCredits.
  pose proof (uploadImages_db jobId (images request) 0%nat [] db) as Hdb.
  unfold POST, try_catch, bind, ret, lift,
         prisma.user_findUnique, prisma.job_create, prisma.job_update.
  rewrite Hsession.
  destruct (Nat.eqb_spec (length (images request)) 0) as [H0|_]; [lia|].
  rewrite Hprompt.
  destruct (Nat.ltb_spec 100 (length (images request))) as [H100|_]; [lia|].
  rewrite Haccount, Hcheck. cbn [negb]. cbv beta iota.
  destruct (uploadImages uploadBuffer jobId 0 (images request) [] db)
    as [o db0]. simpl in Huploads, Hdb. subst o db0.
  rewrite (deductCredits_covered db userId u _ jobId _ Haccount Hreserved).
  simpl. rewrite Hfresh. simpl. rewrite Hdispatch.
  erewrite refundCredits_run by (simpl; apply lookup_insert_eq).
  simpl. rewrite lookup_insert_eq.
  eexists _, _, _, _, _. split; [reflexivity|]. simpl.
  rewrite <- app_assoc. simpl.
  rewrite !lookup_insert_eq.
  repeat split; try reflexivity. simpl. lia.
Qed.

End Compensation.

Lemma dispatch_failure_is_compensated_witness :
  exists db' reservation refund job u',
    JobsRoute.POST onePerImage noDiscount covers stored queueDown
      submission "job-7" sampleDb =
      (Return {| JobsRoute.status := 500;
                 JobsRoute.body :=
                   JobsRoute.Error "Failed to queue job for processing" |}, db')
    /\ creditTransactions db' = [reservation; refund]
    /\ CreditTransaction.amount reservation = -2
    /\ CreditTransaction.amount refund = 2
    /\ jobs db' !! "job-7" = Some job
    /\ Job.status job = Job.failed
    /\ users db' !! "alice" = Some u'
    /\ User.creditsBalance u' = 100.
Proof.
  destruct (dispatch_failure_is_compensated
              onePerImage noDiscount covers stored queueDown
              submission "job-7" "alice" sampleDb alice
              ["https://bucket/job-7_input_0.png";
               "https://bucket/job-7_input_1.back"]
              "ECONNREFUSED"
              eq_refl ltac:(simpl; lia) ltac:(vm_compute; reflexivity)
              eq_refl eq_refl ltac:(vm_compute; reflexivity)
              ltac:(vm_compute; discriminate) eq_refl eq_refl)
    as (db' & reservation & refund & job & u' & Hrun & Htxs & _ & Hres & _ & _
        & Href & _ & _ & Hjob & Hstatus & _ & _ & _ & Hu & Hbal).
  exists db', reservation, refund, job, u'.
  repeat split; assumption.
Defined.

(* ===================================================================== *)
(** * The scheduler and a second reset within the month *)
(* ===================================================================== *)

Section SecondReset.

Import CreditService.

Variable oneMonthBefore : Z -> Z.

(** Who the selection query returns. *)
Lemma getUsersNeedingReset_selects (now : Z) (db : Db) (userId : string) :
  userId ∈ match fst (getUsersNeedingReset oneMonthBefore now db) with
           | Return ids => ids
           | Throw _ => []
           end
  <-> exists u, users db !! userId = Some u
                /\ User.lastCreditReset u <= oneMonthBefore now
                /\ User.tier u <> Pricing.free.
Proof.
  unfold getUsersNeedingReset, prisma.user_findMany. simpl.
  rewrite list_elem_of_fmap. split.
  - intros ([k u] & -> & Hin).
    apply list_elem_of_filter in Hin as [Hwhere Hin]. simpl in *.
    apply elem_of_map_to_list in Hin.
    apply andb_prop in Hwhere as [Hle Hfree].
    apply Z.leb_le in Hle. apply negb_true_iff, bool_decide_eq_false in Hfree.
    exists u. auto.
  - intros (u & Hu & Hle & Hfree).
    exists (userId, u). split; [reflexivity|].
    apply list_elem_of_filter. split.
    + simpl. apply andb_true_intro. split.
      * apply Z.leb_le. exact Hle.
      * apply negb_true_iff, bool_decide_eq_false. exact Hfree.
    + apply elem_of_map_to_list. exact Hu.
Qed.

(** Resetting one account leaves the row and the transactions of every
    other account alone. *)
Lemma resetMonthlyCredits_other (now : Z) (other userId : string) (db : Db) :
  other <> userId ->
  users (snd (resetMonthlyCredits now other db)) !! userId = users db !! userId
  /\ Ledger.transactionsOf userId (snd (resetMonthlyCredits now other db))
     = Ledger.transactionsOf userId db.
Proof.
  intros Hne.
  destruct (users db !! other) as [u|] eqn:Hu.
  - destruct (resetMonthlyCredits_run db other u now Hu)
      as (res & u' & tx & -> & _ & _ & _ & _ & Hid & _). simpl.
    split; [apply lookup_insert_ne; exact Hne|].
    unfold Ledger.transactionsOf. simpl.
    rewrite filter_app, filter_cons, filter_nil.
    rewrite decide_False by (rewrite Hid; exact Hne).
    apply app_nil_r.
  - destruct (missing_account_throws db other Hu) as (_ & _ & _ & -> & _).
    split; reflexivity.
Qed.

Lemma processEach_other
    (resetAt : string -> Z) (userId : string) (userIds : list string) :
  userId ∉ userIds ->
  forall (results : CronRoute.Results) (db : Db),
    users (snd (CronRoute.processEach resetAt userIds results db)) !! userId
    = users db !! userId
    /\ Ledger.transactionsOf userId
         (snd (CronRoute.processEach resetAt userIds results db))
       = Ledger.transactionsOf userId db.
Proof.
  induction userIds as [|other rest IH]; intros Hnotin results db.
  - split; reflexivity.
  - apply not_elem_of_cons in Hnotin as [Hne Hrest].
    destruct (resetMonthlyCredits_other (resetAt other) other userId db)
      as [Husers Htxs]; [congruence|].
    cbn [CronRoute.processEach]. unfold bind, try_catch, ret.
    destruct (resetMonthlyCredits (resetAt other) other db) as [[res|e] db1];
      simpl in Husers, Htxs.
    + destruct (IH Hrest (CronRoute.succeeded results) db1) as [H1 H2].
      split; [rewrite <- Husers | rewrite <- Htxs]; assumption.
    + destruct (IH Hrest (CronRoute.errored other e results) db1) as [H1 H2].
      split; [rewrite <- Husers | rewrite <- Htxs]; assumption.
Qed.


End SecondReset.



(* ===================================================================== *)
(** * The batch price grows, the price per image falls *)
(* ===================================================================== *)

Section Discount.

Import BatchPricing.

(** Along a declining list of breakpoints the rate of a later image is
    between zero and the rate of an earlier one. *)
Lemma marginalRate_declines (bps : list Breakpoint) :
  forall (current : Z) (i j : nat),
    declining current bps = true ->
    (i <= j)%nat ->
    0 <= marginalRate current bps j
    /\ marginalRate current bps j <= marginalRate current bps i
    /\ marginalRate current bps i <= current.
Proof.
  induction bps as [|bp rest IH]; intros current i j Hdecl Hij; simpl in *.
  - apply Z.leb_le in Hdecl. lia.
  - apply andb_prop in Hdecl as [Hrate Hrest]. apply Z.leb_le in Hrate.
    destruct (Nat.leb_spec (threshold bp) i) as [Hi|Hi];
      destruct (Nat.leb_spec (threshold bp) j) as [Hj|Hj]; try lia.
    + destruct (IH (rate bp) i j Hrest Hij) as (H0 & H1 & H2). lia.
    + destruct (IH (rate bp) j j Hrest (Nat.le_refl j)) as (H0 & H1 & H2). lia.
    + destruct (IH (rate bp) j j Hrest (Nat.le_refl j)) as (H0 & H1 & H2). lia.
Qed.

Variable s : Schedule.
Hypothesis Hschedule : discountSchedule s = true.

Let rateOf (unit : nat) : Z := marginalRate (baseRate s) (breakpoints s) unit.

Lemma rateOf_declines (i j : nat) :
  (i <= j)%nat -> 0 <= rateOf j <= rateOf i.
Proof.
  intros Hij.
  destruct (marginalRate_declines (breakpoints s) (baseRate s) i j Hschedule Hij)
    as (H0 & H1 & _).
  split; assumption.
Qed.

(** Each of the first [q] images costs at least what a later one does. *)
Lemma cost_at_least (q n : nat) :
  (q <= n)%nat -> rateOf n * Z.of_nat q <= calculateBatchCredits s q.
Proof.
  induction q as [|q IH]; intros Hqn; simpl calculateBatchCredits.
  - lia.
  - pose proof (rateOf_declines q n ltac:(lia)) as Hr.
    specialize (IH ltac:(lia)). fold (rateOf q). lia.
Qed.

(** Each further image costs at most what image [q] does, and never a
    negative amount. *)
Lemma cost_at_most (q d : nat) :
  calculateBatchCredits s q <= calculateBatchCredits s (q + d)
  /\ calculateBatchCredits s (q + d)
     <= calculateBatchCredits s q + Z.of_nat d * rateOf q.
Proof.
  induction d as [|d [IHlo IHhi]].
  - rewrite Nat.add_0_r. lia.
  - rewrite Nat.add_succ_r. simpl calculateBatchCredits. fold (rateOf (q + d)).
    pose proof (rateOf_declines q (q + d) ltac:(lia)) as Hr. lia.
Qed.

(** C9. For the discount schedule the spec describes (a base rate per
    image and declining rates past the thresholds) and for all
    quantities 0 < q1 < q2: the total cost does not decrease,
    computeCost(q1) <= computeCost(q2), and the average cost per image
    does not increase, computeCost(q2)/q2 <= computeCost(q1)/q1. *)
Theorem batch_price_monotone (q1 q2 : nat)
    (Hpositive : (0 < q1)%nat) (Horder : (q1 < q2)%nat) :
  calculateBatchCredits s q1 <= calculateBatchCredits s q2
  /\ (averageCost s q2 <= averageCost s q1)%Q.
Proof.
  replace q2 with (q1 + (q2 - q1))%nat by lia.
  set (d := (q2 - q1)%nat).
  destruct (cost_at_most q1 d) as [Hlo Hhi].
  split; [exact Hlo|].
  pose proof (cost_at_least q1 q1 (Nat.le_refl q1)) as Hbase.
  unfold averageCost, Qle. simpl Qnum. simpl Qden.
  rewrite <- !positive_nat_Z, !Nat2Pos.id by lia.
  rewrite Nat2Z.inj_add.
  assert (Hd : 0 <= Z.of_nat d) by lia.
  assert (Hq : 0 < Z.of_nat q1) by lia.
  nia.
Qed.

End Discount.

Lemma batch_price_monotone_witness :
  BatchPricing.discountSchedule threeTwoOne = true
  /\ BatchPricing.calculateBatchCredits threeTwoOne 5
     <= BatchPricing.calculateBatchCredits threeTwoOne 20
  /\ (BatchPricing.averageCost threeTwoOne 20
      <= BatchPricing.averageCost threeTwoOne 5)%Q.
Proof.
  split; [reflexivity|].
  exact (batch_price_monotone threeTwoOne eq_refl 5%nat 20%nat
           ltac:(lia) ltac:(lia)).
Defined.

(* ===================================================================== *)
(** * Further properties: pricing *)
(* ===================================================================== *)

Section PricingFacts.

Import Pricing.

(** X1. [calculateRollover] with a cap that is not negative returns at
    least the monthly allocation and at most the allocation plus the
    cap; it returns exactly the allocation when the balance is zero or
    negative, and it never decreases when the balance grows. *)
Theorem calculateRollover_bounds
    (currentBalance other monthly cap : Z)
    (Hcap : 0 <= cap) :
  monthly <= calculateRollover currentBalance monthly cap <= monthly + cap
  /\ (currentBalance <= 0 -> calculateRollover currentBalance monthly cap = monthly)
  /\ (cap <= currentBalance ->
        calculateRollover currentBalance monthly cap = monthly + cap)
  /\ (currentBalance <= other ->
        calculateRollover currentBalance monthly cap
        <= calculateRollover other monthly cap).
Proof.
  unfold calculateRollover. repeat split; intros; lia.
Qed.

Lemma calculateRollover_bounds_witness :
  100 <= calculateRollover 80 100 50 <= 150
  /\ calculateRollover (-7) 100 50 = 100.
Proof.
  destruct (calculateRollover_bounds 80 90 100 50 ltac:(lia)) as (H & _).
  destruct (calculateRollover_bounds (-7) 0 100 50 ltac:(lia)) as (_ & H0 & _).
  split; [exact H | apply H0; lia].
Defined.

(** X2. [getAlaCarteOption] finds a pack exactly for 50, 100 and 500
    credits, and the pack it returns holds the number of credits asked
    for; for every other number it returns nothing. *)
Theorem getAlaCarteOption_finds (wanted : Z) :
  (forall option, getAlaCarteOption wanted = Some option ->
                  credits option = wanted /\ option ∈ ALA_CARTE_OPTIONS)
  /\ (is_Some (getAlaCarteOption wanted)
      <-> wanted = 50 \/ wanted = 100 \/ wanted = 500).
Proof.
  unfold getAlaCarteOption, ALA_CARTE_OPTIONS. cbn [List.find credits].
  destruct (Z.eqb_spec 50 wanted) as [<-|H50].
  { split; [intros o [= <-]; split; [reflexivity|set_solver] | split; eauto]. }
  destruct (Z.eqb_spec 100 wanted) as [<-|H100].
  { split; [intros o [= <-]; split; [reflexivity|set_solver] | split; eauto]. }
  destruct (Z.eqb_spec 500 wanted) as [<-|H500].
  { split; [intros o [= <-]; split; [reflexivity|set_solver] | split; eauto]. }
  cbv iota.
  split; [intros o Ho; discriminate Ho|].
  split; [intros [o Ho]; discriminate Ho | lia].
Qed.

End PricingFacts.

(* ===================================================================== *)
(** * Further properties: the ledger operations *)
(* ===================================================================== *)

Section LedgerFacts.

Import CreditService Ledger.

(** What one operation does to the database when the account exists:
    it rewrites the account's row as [rowAfter] says, appends at most
    one transaction, of that account, and leaves the job table alone. *)
Lemma perform_effect (userId : string) (op : Operation) (db : Db) (u : User.t) :
  users db !! userId = Some u ->
  exists suffix,
    snd (perform userId op db)
    = {| users := <[userId := rowAfter op u]> (users db);
         creditTransactions := creditTransactions db ++ suffix;
         jobs := jobs db |}
    /\ (length suffix <= 1)%nat
    /\ Forall (fun tx => CreditTransaction.userId tx = userId) suffix.
Proof.
  intros Hu.
  destruct op as [amount jobId description | amount jobId reason
                 | credits payment | now | newTier]; simpl.
  - unfold bind.
    destruct (Z.ltb_spec (User.creditsBalance u) amount) as [Hlt|Hge].
    + rewrite (deductCredits_short db userId u amount _ _ Hu Hlt). simpl.
      exists []. rewrite app_nil_r, insert_id by exact Hu.
      destruct db; simpl; repeat split; [lia | constructor].
    + rewrite (deductCredits_covered db userId u amount _ _ Hu Hge). simpl.
      eexists [_]. repeat split; [simpl; lia|].
      constructor; [reflexivity | constructor].
  - rewrite (refundCredits_run db userId u amount _ _ Hu). simpl.
    eexists [_]. repeat split; [simpl; lia|].
    constructor; [reflexivity | constructor].
  - run_service. rewrite Hu. simpl. rewrite Hu. simpl.
    eexists [_]. repeat split; [simpl; lia|].
    constructor; [reflexivity | constructor].
  - run_service. rewrite Hu. simpl. rewrite Hu. simpl.
    eexists [_]. repeat split; [simpl; lia|].
    constructor; [reflexivity | constructor].
  - run_service. rewrite Hu. simpl.
    eexists [_]. repeat split; [simpl; lia|].
    constructor; [reflexivity | constructor].
Qed.

Lemma perform_missing (userId : string) (op : Operation) (db : Db) :
  users db !! userId = None ->
  exists e, perform userId op db = (Throw e, db)
            /\ (match op with TierChange _ => True
                | _ => e = "User not found: " +:+ userId end).
Proof.
  intros Hu.
  destruct op; simpl; run_service; rewrite Hu; eexists; split; reflexivity.
Qed.

Lemma performAll_app (userId : string) (ops more : list Operation) (db : Db) :
  performAll userId (ops ++ more) db
  = performAll userId more (performAll userId ops db).
Proof.
  revert db. induction ops as [|op rest IH]; intros db; simpl; [reflexivity|].
  apply IH.
Qed.

(** X3. An operation on an account that does not exist throws -- "User
    not found: <id>" from the four operations that look the account up,
    the database's own error from [updateUserTier] -- and changes
    nothing: no row, no transaction and no job is written, however many
    operations are tried. *)
Theorem unknown_account_is_rejected
    (userId : string) (db : Db)
    (Hunknown : users db !! userId = None) :
  (forall amount jobId description,
     deductCredits userId amount jobId description db
     = (Throw ("User not found: " +:+ userId), db))
  /\ (forall amount jobId reason,
        refundCredits userId amount jobId reason db
        = (Throw ("User not found: " +:+ userId), db))
  /\ (forall credits payment,
        addAlaCarteCredits userId credits payment db
        = (Throw ("User not found: " +:+ userId), db))
  /\ (forall now,
        resetMonthlyCredits now userId db
        = (Throw ("User not found: " +:+ userId), db))
  /\ (forall newTier, exists e, updateUserTier userId newTier db = (Throw e, db))
  /\ (forall ops, performAll userId ops db = db).
Proof.
  repeat split; intros; try (run_service; rewrite Hunknown; reflexivity).
  - run_service. rewrite Hunknown. eexists. reflexivity.
  - induction ops as [|op rest IH]; simpl; [reflexivity|].
    destruct (perform_missing userId op db Hunknown) as (e & -> & _).
    exact IH.
Qed.

Lemma unknown_account_is_rejected_witness :
  users sampleDb !! "carol" = None
  /\ deductCredits "carol" 5 "job-1" "batch" sampleDb
     = (Throw "User not found: carol", sampleDb)
  /\ performAll "carol" busyDay sampleDb = sampleDb.
Proof.
  destruct (unknown_account_is_rejected "carol" sampleDb eq_refl)
    as (Hdeduct & _ & _ & _ & _ & Hall).
  split; [reflexivity|]. split; [apply Hdeduct | apply Hall].
Defined.

(** X4. The ledger is append-only.  Whatever the operations and
    whatever their outcome, the transactions recorded before are still
    there, in place, followed by at most one new transaction per
    operation, each of the account operated on; no job is touched and
    no account is created or removed. *)
Theorem ledger_is_append_only (userId : string) (ops : list Operation) (db : Db) :
  exists suffix,
    creditTransactions (performAll userId ops db)
    = creditTransactions db ++ suffix
    /\ (length suffix <= length ops)%nat
    /\ Forall (fun tx => CreditTransaction.userId tx = userId) suffix
    /\ jobs (performAll userId ops db) = jobs db
    /\ dom (users (performAll userId ops db)) = dom (users db).
Proof.
  revert db. induction ops as [|op rest IH]; intros db; simpl.
  - exists []. rewrite app_nil_r.
    split; [reflexivity|]. split; [simpl; lia|]. split; [constructor|].
    split; reflexivity.
  - destruct (IH (snd (perform userId op db)))
      as (suffix & Htxs & Hlen & Hids & Hjobs & Hdom).
    destruct (users db !! userId) as [u|] eqn:Hu.
    + destruct (perform_effect userId op db u Hu) as (one & Heq & Hone & Hid).
      rewrite Heq in Htxs, Hjobs, Hdom. simpl in Htxs, Hjobs, Hdom.
      rewrite Heq. exists (one ++ suffix).
      rewrite Htxs, app_assoc, length_app. repeat split.
      * lia.
      * apply Forall_app. split; assumption.
      * exact Hjobs.
      * rewrite Hdom, dom_insert_L.
        apply subseteq_union_1_L, singleton_subseteq_l, elem_of_dom. eauto.
    + destruct (perform_missing userId op db Hu) as (e & Heq & _).
      rewrite Heq in Htxs, Hjobs, Hdom. simpl in Htxs, Hjobs, Hdom.
      rewrite Heq. simpl. exists suffix. repeat split; try assumption. lia.
Qed.

(** X5. Operations on one account never reach another: the row of
    every other account and the transactions recorded for it are the
    same after any sequence of operations. *)
Theorem other_accounts_are_untouched
    (userId other : string) (ops : list Operation) (db : Db)
    (Hother : other <> userId) :
  users (performAll userId ops db) !! other = users db !! other
  /\ transactionsOf other (performAll userId ops db) = transactionsOf other db
  /\ ledgerSum other (performAll userId ops db) = ledgerSum other db.
Proof.
  assert (Hboth :
    users (performAll userId ops db) !! other = users db !! other
    /\ transactionsOf other (performAll userId ops db) = transactionsOf other db).
  { revert db. induction ops as [|op rest IH]; intros db; simpl.
    - split; reflexivity.
    - destruct (IH (snd (perform userId op db))) as [Hrow Htxs].
      rewrite Hrow, Htxs.
      destruct (users db !! userId) as [u|] eqn:Hu.
      + destruct (perform_effect userId op db u Hu) as (one & -> & _ & Hid).
        simpl. split; [apply lookup_insert_ne; congruence|].
        unfold transactionsOf. simpl. rewrite filter_app.
        assert (Hnone : filter (fun tx => CreditTransaction.userId tx = other) one = []).
        { induction Hid as [|tx l Htx _ IHl]; [reflexivity|].
          rewrite filter_cons, decide_False by congruence. exact IHl. }
        rewrite Hnone. apply app_nil_r.
      + destruct (perform_missing userId op db Hu) as (e & -> & _).
        split; reflexivity. }
  destruct Hboth as [Hrow Htxs].
  split; [exact Hrow|]. split; [exact Htxs|].
  unfold ledgerSum. rewrite Htxs. reflexivity.
Qed.

Lemma other_accounts_are_untouched_witness :
  users (performAll "bob" busyDay twoAccounts) !! "alice" = Some alice
  /\ transactionsOf "alice" (performAll "bob" busyDay twoAccounts) = [].
Proof.
  destruct (other_accounts_are_untouched "bob" "alice" busyDay twoAccounts
              ltac:(discriminate)) as (Hrow & Htxs & _).
  split; [rewrite Hrow; reflexivity | rewrite Htxs; reflexivity].
Defined.

End LedgerFacts.

(* ===================================================================== *)
(** * Further properties: what sequences of operations preserve *)
(* ===================================================================== *)

Section LedgerInvariants.

Import CreditService Ledger.

(** A property of the account's row that every admitted operation
    preserves holds after any sequence of admitted operations. *)
Lemma performAll_preserves
    (P : User.t -> Prop) (admitted : Operation -> bool)
    (Hstep : forall op u, admitted op = true -> P u -> P (rowAfter op u))
    (userId : string) (ops : list Operation) :
  forall (db : Db) (u : User.t),
    users db !! userId = Some u ->
    P u ->
    forallb admitted ops = true ->
    exists u', users (performAll userId ops db) !! userId = Some u' /\ P u'.
Proof.
  induction ops as [|op rest IH]; intros db u Hu HP Hops; simpl in *.
  - exists u. split; assumption.
  - apply andb_prop in Hops as [Hop Hrest].
    destruct (perform_effect userId op db u Hu) as (one & Heq & _).
    apply (IH _ (rowAfter op u)); [|apply Hstep; assumption|exact Hrest].
    rewrite Heq. simpl. apply lookup_insert_eq.
Qed.

Lemma tier_allocation_nonnegative (t : Pricing.TierName) :
  0 < Pricing.monthlyCredits (Pricing.getTierConfig t)
  /\ 0 <= Pricing.rolloverCap (Pricing.getTierConfig t)
     <= Pricing.monthlyCredits (Pricing.getTierConfig t).
Proof. destruct t; simpl; lia. Qed.

(** X6. Starting from a balance and a [creditsUsedThisMonth] that are
    not negative, no sequence of operations with positive amounts makes
    either of them negative: a reservation is refused rather than
    overdrawing, a refund clamps, a reset grants at least the monthly
    allocation. *)
Theorem credits_never_go_negative
    (userId : string) (ops : list Operation) (db : Db) (u : User.t)
    (Haccount : users db !! userId = Some u)
    (Hbalance : 0 <= User.creditsBalance u)
    (Hused : 0 <= User.creditsUsedThisMonth u)
    (Hamounts : forallb positiveAmount ops = true) :
  exists u',
    users (performAll userId ops db) !! userId = Some u'
    /\ 0 <= User.creditsBalance u'
    /\ 0 <= User.creditsUsedThisMonth u'.
Proof.
  apply (performAll_preserves
           (fun r => 0 <= User.creditsBalance r /\ 0 <= User.creditsUsedThisMonth r)
           positiveAmount) with (u := u); try assumption; [|split; assumption].
  clear. intros op r Hop [Hb Hu].
  destruct op as [a ? ? | a ? ? | a ? | now | t]; simpl in *.
  - apply Z.ltb_lt in Hop.
    destruct (Z.ltb_spec (User.creditsBalance r) a); simpl; lia.
  - apply Z.ltb_lt in Hop. lia.
  - apply Z.ltb_lt in Hop. lia.
  - pose proof (tier_allocation_nonnegative (User.tier r)) as [Hm Hc].
    unfold Pricing.calculateRollover. lia.
  - lia.
Qed.

Lemma credits_never_go_negative_witness :
  exists u',
    users (performAll "bob" busyDay freshDb) !! "bob" = Some u'
    /\ 0 <= User.creditsBalance u'
    /\ 0 <= User.creditsUsedThisMonth u'.
Proof.
  exact (credits_never_go_negative "bob" busyDay freshDb bob eq_refl
           ltac:(simpl; lia) ltac:(simpl; lia) eq_refl).
Defined.

(** X7. The allocation and the cap stored on an account follow its
    tier: if they match the tier's configuration they still do after
    any sequence of operations, and a monthly reset or a tier change
    makes them match whatever they were before. *)
Theorem allocation_follows_tier
    (userId : string) (ops : list Operation) (db : Db) (u : User.t)
    (Haccount : users db !! userId = Some u) :
  (inSync u = true ->
     exists u', users (performAll userId ops db) !! userId = Some u'
                /\ inSync u' = true)
  /\ (forall now,
        exists u', users (snd (perform userId (MonthlyReset now) db)) !! userId
                   = Some u'
                   /\ inSync u' = true)
  /\ (forall newTier,
        exists u', users (snd (perform userId (TierChange newTier) db)) !! userId
                   = Some u'
                   /\ inSync u' = true
                   /\ User.tier u' = newTier).
Proof.
  split; [|split].
  - intros Hsync.
    apply (performAll_preserves (fun r => inSync r = true) (fun _ => true))
      with (u := u); try assumption.
    + clear. intros op r _ Hr. unfold inSync in *.
      apply andb_prop in Hr as [Hm Hc]. apply Z.eqb_eq in Hm, Hc.
      destruct op as [a ? ? | a ? ? | a ? | now | t]; simpl;
        try destruct (User.creditsBalance r <? a); simpl;
        rewrite ?Hm, ?Hc, !Z.eqb_refl; reflexivity.
    + induction ops; simpl; auto.
  - intros now.
    destruct (perform_effect userId (MonthlyReset now) db u Haccount)
      as (one & -> & _).
    eexists. split; [apply lookup_insert_eq|].
    unfold inSync. simpl. rewrite !Z.eqb_refl. reflexivity.
  - intros newTier.
    destruct (perform_effect userId (TierChange newTier) db u Haccount)
      as (one & -> & _).
    eexists. split; [apply lookup_insert_eq|].
    unfold inSync. simpl. rewrite !Z.eqb_refl. split; reflexivity.
Qed.

Lemma allocation_follows_tier_witness :
  exists u', users (performAll "bob" busyDay freshDb) !! "bob" = Some u'
             /\ inSync u' = true.
Proof.
  exact (proj1 (allocation_follows_tier "bob" busyDay freshDb bob eq_refl) eq_refl).
Defined.

(** X8. [addAlaCarteCredits] on an existing account raises the balance
    by the credits bought and changes no other column; it appends one
    [purchase] transaction of that amount, not tied to any job, and
    touches neither the rest of the ledger nor the jobs. *)
Theorem addAlaCarteCredits_adds
    (db : Db) (userId : string) (u : User.t) (credits : Z) (payment : string)
    (Haccount : users db !! userId = Some u) :
  exists (db' : Db) (u' : User.t) (tx : CreditTransaction.t),
    addAlaCarteCredits userId credits payment db = (Return tt, db')
    /\ users db' = <[userId := u']> (users db)
    /\ User.creditsBalance u' = User.creditsBalance u + credits
    /\ User.creditsUsedThisMonth u' = User.creditsUsedThisMonth u
    /\ User.tier u' = User.tier u
    /\ User.monthlyCredits u' = User.monthlyCredits u
    /\ User.rolloverCap u' = User.rolloverCap u
    /\ User.lastCreditReset u' = User.lastCreditReset u
    /\ creditTransactions db' = creditTransactions db ++ [tx]
    /\ CreditTransaction.userId tx = userId
    /\ CreditTransaction.type tx = CreditTransaction.purchase
    /\ CreditTransaction.amount tx = credits
    /\ CreditTransaction.jobId tx = None
    /\ jobs db' = jobs db.
Proof.
  run_service. rewrite Haccount. simpl. rewrite Haccount.
  eexists _, _, _. split; [reflexivity|]. simpl.
  repeat split; reflexivity.
Qed.

Lemma addAlaCarteCredits_adds_witness :
  exists db' u' tx,
    addAlaCarteCredits "alice" 50 "pi_1" sampleDb = (Return tt, db')
    /\ users db' = <["alice" := u']> (users sampleDb)
    /\ User.creditsBalance u' = 150
    /\ creditTransactions db' = [tx]
    /\ CreditTransaction.amount tx = 50.
Proof.
  destruct (addAlaCarteCredits_adds sampleDb "alice" alice 50 "pi_1" eq_refl)
    as (db' & u' & tx & Hrun & Hu & Hbal & _ & _ & _ & _ & _ & Htx & _ & _
        & Hamt & _).
  exists db', u', tx. repeat split; assumption.
Defined.

(** X9. [addAlaCarteCredits] does not look at the payment reference: a
    payment confirmation delivered twice is credited twice.  After two
    calls with the same [stripePaymentIntentId] the balance is up by
    twice the credits and two [purchase] transactions are recorded. *)
Theorem repeated_payment_is_credited_twice
    (db : Db) (userId : string) (u : User.t) (credits : Z) (payment : string)
    (Haccount : users db !! userId = Some u) :
  let twice := performAll userId
                 [Purchase credits payment; Purchase credits payment] db in
  balanceOf userId twice = Some (User.creditsBalance u + 2 * credits)
  /\ exists tx1 tx2,
       creditTransactions twice = creditTransactions db ++ [tx1; tx2]
       /\ CreditTransaction.amount tx1 = credits
       /\ CreditTransaction.amount tx2 = credits
       /\ CreditTransaction.type tx1 = CreditTransaction.purchase
       /\ CreditTransaction.type tx2 = CreditTransaction.purchase
       /\ CreditTransaction.description tx1 = CreditTransaction.description tx2.
Proof.
  simpl. run_service. rewrite Haccount. simpl. rewrite Haccount. simpl.
  rewrite !lookup_insert_eq. simpl. rewrite lookup_insert_eq. simpl.
  unfold balanceOf. simpl. rewrite lookup_insert_eq. simpl.
  split; [f_equal; lia|].
  eexists _, _. rewrite <- app_assoc. simpl.
  split; [reflexivity|]. repeat split; reflexivity.
Qed.

Lemma repeated_payment_is_credited_twice_witness :
  balanceOf "alice"
    (performAll "alice" [Purchase 50 "pi_1"; Purchase 50 "pi_1"] sampleDb)
  = Some 200.
Proof.
  exact (proj1 (repeated_payment_is_credited_twice sampleDb "alice" alice 50
                  "pi_1" eq_refl)).
Defined.

(** X10. A refund that arrives after a monthly reset still goes
    through: a covered reservation, then a reset, then the refund of
    the same amount leave [creditsUsedThisMonth] at zero (the reset
    cleared it and the refund clamps) and a balance of the reset
    balance plus the refunded amount. *)
Theorem refund_after_reset_clamps
    (db : Db) (userId : string) (u : User.t) (amount now : Z)
    (jobId description reason : string)
    (Haccount : users db !! userId = Some u)
    (Hamount : 0 < amount)
    (Hcovered : amount <= User.creditsBalance u) :
  let cfg := Pricing.getTierConfig (User.tier u) in
  exists u',
    users (performAll userId
             [Reserve amount jobId description; MonthlyReset now;
              Refund amount jobId reason] db) !! userId = Some u'
    /\ User.creditsUsedThisMonth u' = 0
    /\ User.creditsBalance u'
       = Pricing.calculateRollover (User.creditsBalance u - amount)
           (Pricing.monthlyCredits cfg) (Pricing.rolloverCap cfg)
         + amount
    /\ User.lastCreditReset u' = now.
Proof.
  intros cfg. cbn [performAll].
  destruct (perform_effect userId (Reserve amount jobId description) db u Haccount)
    as (s1 & -> & _).
  set (u1 := rowAfter (Reserve amount jobId description) u).
  match goal with
  | |- context [perform userId (MonthlyReset now) ?d] =>
      destruct (perform_effect userId (MonthlyReset now) d u1
                  ltac:(apply lookup_insert_eq)) as (s2 & -> & _)
  end.
  set (u2 := rowAfter (MonthlyReset now) u1).
  match goal with
  | |- context [perform userId (Refund amount jobId reason) ?d] =>
      destruct (perform_effect userId (Refund amount jobId reason) d u2
                  ltac:(apply lookup_insert_eq)) as (s3 & -> & _)
  end.
  eexists. split; [apply lookup_insert_eq|].
  subst u2 u1. simpl.
  destruct (Z.ltb_spec (User.creditsBalance u) amount) as [?|_]; [lia|].
  simpl. repeat split; lia.
Qed.

Lemma refund_after_reset_clamps_witness :
  exists u',
    users (performAll "alice"
             [Reserve 30 "job-1" "batch"; MonthlyReset 5000;
              Refund 30 "job-1" "failed"] sampleDb) !! "alice" = Some u'
    /\ User.creditsUsedThisMonth u' = 0
    /\ User.creditsBalance u' = 180.
Proof.
  destruct (refund_after_reset_clamps sampleDb "alice" alice 30 5000
              "job-1" "batch" "failed" eq_refl ltac:(lia) ltac:(simpl; lia))
    as (u' & Hu & Hused & Hbal & _).
  exists u'. repeat split; assumption.
Defined.

End LedgerInvariants.

(* ===================================================================== *)
(** * Further properties: reservations, one at a time and overlapping *)
(* ===================================================================== *)

Section Reservations.

Import CreditService Interleaving.

(** X11. Reservations of positive amounts served one after the other
    never grant more than the account held when the first one came in,
    and they leave a balance that is not negative. *)
Theorem serial_reservations_never_overdraw
    (userId : string) (amounts : list Z) (db : Db) (u : User.t)
    (Haccount : users db !! userId = Some u)
    (Hamounts : Forall (fun a => 0 < a) amounts)
    (Hbalance : 0 <= User.creditsBalance u) :
  fst (Ledger.reserveAll userId amounts db) <= User.creditsBalance u
  /\ exists u',
       users (snd (Ledger.reserveAll userId amounts db)) !! userId = Some u'
       /\ 0 <= User.creditsBalance u'
       /\ User.creditsBalance u'
          = User.creditsBalance u - fst (Ledger.reserveAll userId amounts db).
Proof.
  destruct (reserveAll_granted userId amounts db u Haccount Hamounts Hbalance)
    as (u' & Hu' & Hb' & Hsum).
  split; [lia|]. exists u'. repeat split; [exact Hu' | exact Hb' | lia].
Qed.

Lemma serial_reservations_never_overdraw_witness :
  fst (Ledger.reserveAll "alice" [60; 60; 30; 20] sampleDb) <= 100.
Proof.
  exact (proj1 (serial_reservations_never_overdraw "alice" [60; 60; 30; 20]
                  sampleDb alice eq_refl
                  ltac:(repeat constructor) ltac:(simpl; lia))).
Defined.

(** X12. Two overlapping reservations on one account that both look the
    balance up before either writes it: whenever each amount is covered
    on its own, both report success, the second write overwrites the
    first -- the balance goes down by the second amount only -- and the
    ledger records both amounts as used. *)
Theorem overlap_loses_the_first_write
    (c1 c2 : Call) (db : Db) (u : User.t)
    (Hsame : userId c1 = userId c2)
    (Haccount : users db !! userId c1 = Some u)
    (Hfirst : amount c1 <= User.creditsBalance u)
    (Hsecond : amount c2 <= User.creditsBalance u) :
  let final := interleave c1 c2 bothReadFirst db in
  task1 final = Settled (Return {| success := true;
                                   newBalance := User.creditsBalance u - amount c1;
                                   insufficientCredits := false |})
  /\ task2 final = Settled (Return {| success := true;
                                      newBalance := User.creditsBalance u - amount c2;
                                      insufficientCredits := false |})
  /\ Ledger.balanceOf (userId c1) (store final)
     = Some (User.creditsBalance u - amount c2)
  /\ CreditTransaction.amount <$> creditTransactions (store final)
     = (CreditTransaction.amount <$> creditTransactions db)
       ++ [- amount c1; - amount c2].
Proof.
  unfold interleave, bothReadFirst. cbn [foldl].
  set (b := User.creditsBalance u). set (used := User.creditsUsedThisMonth u).
  assert (Hfind1 : forall t2,
            resume c1 c2 first {| task1 := AwaitFind; task2 := t2; store := db |}
            = {| task1 := AwaitUpdate (b - amount c1) (used + amount c1);
                 task2 := t2; store := db |}).
  { intros t2. unfold resume. simpl. rewrite Haccount. fold b.
    destruct (Z.ltb_spec b (amount c1)) as [?|_]; [lia|reflexivity]. }
  assert (Hfind2 : forall t1,
            resume c1 c2 second {| task1 := t1; task2 := AwaitFind; store := db |}
            = {| task1 := t1;
                 task2 := AwaitUpdate (b - amount c2) (used + amount c2);
                 store := db |}).
  { intros t1. unfold resume. simpl. rewrite <- Hsame, Haccount. fold b.
    destruct (Z.ltb_spec b (amount c2)) as [?|_]; [lia|reflexivity]. }
  rewrite Hfind1, Hfind2.
  unfold resume, Ledger.balanceOf. simpl.
  do 3 (unfold prisma.user_update, prisma.creditTransaction_create; simpl;
        rewrite <- ?Hsame, ?Haccount, ?lookup_insert_eq; simpl).
  repeat split.
  rewrite <- app_assoc, fmap_app. reflexivity.
Qed.

Lemma overlap_loses_the_first_write_witness :
  Ledger.balanceOf "alice"
    (store (interleave request1 request2 bothReadFirst sampleDb)) = Some 40.
Proof.
  destruct (overlap_loses_the_first_write request1 request2 sampleDb alice
              eq_refl eq_refl ltac:(simpl; lia) ltac:(simpl; lia))
    as (_ & _ & Hbal & _).
  exact Hbal.
Defined.

Variable oneMonthAfter : Z -> Z.

(** X13. [getCreditSummary] only reads: it leaves the database as it
    is, throws "User not found" for an unknown account, and for a known
    one reports the columns of its row with the next reset one month
    after the last.  Read after a successful reservation it shows the
    balance that the reservation returned and the usage raised by the
    reserved amount. *)
Theorem getCreditSummary_reads
    (db : Db) (userId : string) (amount : Z) (jobId description : string) :
  snd (getCreditSummary oneMonthAfter userId db) = db
  /\ (users db !! userId = None ->
        fst (getCreditSummary oneMonthAfter userId db)
        = Throw ("User not found: " +:+ userId))
  /\ (forall u, users db !! userId = Some u ->
        fst (getCreditSummary oneMonthAfter userId db)
        = Return {| currentBalance := User.creditsBalance u;
                    monthlyAllocation := User.monthlyCredits u;
                    usedThisMonth := User.creditsUsedThisMonth u;
                    summary_rolloverCap := User.rolloverCap u;
                    summary_tier := User.tier u;
                    lastReset := User.lastCreditReset u;
                    nextReset := oneMonthAfter (User.lastCreditReset u) |})
  /\ (forall u res db1,
        users db !! userId = Some u ->
        deductCredits userId amount jobId description db = (Return res, db1) ->
        success res = true ->
        exists summary,
          getCreditSummary oneMonthAfter userId db1 = (Return summary, db1)
          /\ currentBalance summary = newBalance res
          /\ usedThisMonth summary = User.creditsUsedThisMonth u + amount
          /\ lastReset summary = User.lastCreditReset u).
Proof.
  unfold getCreditSummary, bind, ret, throw, prisma.user_findUnique. simpl.
  split; [destruct (users db !! userId); reflexivity|].
  split; [intros ->; reflexivity|].
  split; [intros u ->; reflexivity|].
  intros u res db1 Hu Hrun Hok.
  destruct (Z.ltb_spec (User.creditsBalance u) amount) as [Hlt|Hge].
  - rewrite (deductCredits_short db userId u amount _ _ Hu Hlt) in Hrun.
    injection Hrun as <- <-. discriminate Hok.
  - rewrite (deductCredits_covered db userId u amount _ _ Hu Hge) in Hrun.
    injection Hrun as <- <-. simpl. rewrite lookup_insert_eq.
    eexists. split; [reflexivity|]. repeat split.
Qed.

End Reservations.

(* ===================================================================== *)
(** * Further properties: the submission handler *)
(* ===================================================================== *)

Section Submission.

Import JobsRoute.

Variable calculateBatchCredits : nat -> Z.
Variable discountPercent : nat -> Z.
Variable hasEnoughCredits : Z -> Z -> bool.
Variable uploadBuffer : string -> string -> string -> outcome string.
Variable addJob : QueueJob -> outcome unit.

Let post := POST calculateBatchCredits discountPercent hasEnoughCredits
                 uploadBuffer addJob.

(** A reservation that is refused has written nothing. *)
Lemma deductCredits_refused_unchanged
    (userId : string) (amount : Z) (jobId description : string)
    (db db1 : Db) (res : CreditService.DeductResult) :
  CreditService.deductCredits userId amount jobId description db = (Return res, db1) ->
  CreditService.success res = false ->
  db1 = db.
Proof.
  run_service. destruct (users db !! userId) as [u|]; [|discriminate].
  destruct (User.creditsBalance u <? amount).
  - intros [= <- <-]. reflexivity.
  - simpl. destruct (users db !! userId); [|discriminate].
    intros [= <- <-]. discriminate.
Qed.

(** Every way through the handler ends in a response; the responses
    that turn the request down leave the database as it was. *)
Lemma POST_outcome (request : Request) (jobId : string) (db : Db) :
  exists resp db',
    post request jobId db = (Return resp, db')
    /\ ((In (status resp) [400; 401; 402; 404] /\ db' = db)
        \/ status resp = 201 \/ status resp = 500).
Proof.
  subst post.
  unfold POST, try_catch, bind, ret, lift,
         prisma.user_findUnique, prisma.job_create, prisma.job_update.
  destruct (session_user request) as [userId|];
    [|eexists _, _; split; [reflexivity|left; simpl; auto]].
  destruct (length (images request) =? 0)%nat;
    [eexists _, _; split; [reflexivity|left; simpl; auto]|].
  destruct (promptMissing (backgroundPrompt request));
    [eexists _, _; split; [reflexivity|left; simpl; auto]|].
  destruct (100 <? length (images request))%nat;
    [eexists _, _; split; [reflexivity|left; simpl; auto]|].
  destruct (users db !! userId) as [u|];
    [|eexists _, _; split; [reflexivity|left; simpl; auto 6]].
  destruct (hasEnoughCredits _ _); cbn [negb]; cbv beta iota;
    [|eexists _, _; split; [reflexivity|left; simpl; auto 6]].
  pose proof (uploadImages_db uploadBuffer jobId (images request) 0%nat [] db) as Hdb.
  destruct (uploadImages uploadBuffer jobId 0 (images request) [] db)
    as [[urls|e] db0]; simpl in Hdb; subst db0;
    [|eexists _, _; split; [reflexivity|right; right; reflexivity]].
  destruct (CreditService.deductCredits userId _ jobId _ db)
    as [[res|e] db1] eqn:Hdeduct;
    [|eexists _, _; split; [reflexivity|right; right; reflexivity]].
  destruct (CreditService.success res) eqn:Hok; cbn [negb]; cbv beta iota.
  2:{ apply deductCredits_refused_unchanged in Hdeduct; [|exact Hok]. subst db1.
      eexists _, _; split; [reflexivity|left; simpl; auto 6]. }
  cbn [Job.id newJob].
  destruct (jobs db1 !! jobId);
    [eexists _, _; split; [reflexivity|right; right; reflexivity]|].
  cbn [Job.id newJob].
  destruct (addJob _) as [[]|queueError];
    [eexists _, _; split; [reflexivity|right; left; reflexivity]|].
  destruct (CreditService.refundCredits userId _ jobId queueFailure _)
    as [[[]|e] db2];
    [|eexists _, _; split; [reflexivity|right; right; reflexivity]].
  destruct (jobs db2 !! jobId);
    eexists _, _; (split; [reflexivity|right; right; reflexivity]).
Qed.

(** X14. The handler always answers: whatever the request, the account
    and the collaborators do, [POST] returns a response instead of
    throwing, and its status is 201, 400, 401, 402, 404 or 500. *)
Theorem POST_always_responds (request : Request) (jobId : string) (db : Db) :
  exists resp db',
    post request jobId db = (Return resp, db')
    /\ In (status resp) [201; 400; 401; 402; 404; 500].
Proof.
  destruct (POST_outcome request jobId db)
    as (resp & db' & Hrun & [[Hin _]|[H|H]]);
    exists resp, db'; (split; [exact Hrun|]); simpl in *; intuition lia.
Qed.

(** X15. A request that is turned down costs nothing: when [POST]
    answers 400, 401, 402 or 404, no credit has moved, no transaction
    and no job has been written -- the database is the one it found. *)
Theorem rejected_submission_changes_nothing
    (request : Request) (jobId : string) (db db' : Db) (resp : Response)
    (Hrun : post request jobId db = (Return resp, db'))
    (Hrejected : In (status resp) [400; 401; 402; 404]) :
  db' = db.
Proof.
  destruct (POST_outcome request jobId db)
    as (resp0 & db0 & Hrun0 & Hcases).
  rewrite Hrun in Hrun0. injection Hrun0 as <- <-.
  destruct Hcases as [[_ Hdb]|[H|H]]; [exact Hdb| |];
    rewrite H in Hrejected; simpl in Hrejected; intuition discriminate.
Qed.

(** X16. A submission that passes every gate and is accepted by the
    queue answers 201 with the job's id, its status [pending], the
    image count and the credits reserved.  It leaves the balance lower
    and [creditsUsedThisMonth] higher by the batch price, one [usage]
    transaction of minus the price tagged with the job id, and a new
    job row that is [pending], holds the uploaded images in order,
    reserves the price and has consumed nothing. *)
Theorem accepted_submission_reserves
    (request : Request) (jobId userId : string) (db : Db) (u : User.t)
    (imageUrls : list string)
    (Hsession : session_user request = Some userId)
    (Himages : (0 < length (images request) <= 100)%nat)
    (Hprompt : promptMissing (backgroundPrompt request) = false)
    (Haccount : users db !! userId = Some u)
    (Hcheck : hasEnoughCredits (User.creditsBalance u)
                (calculateBatchCredits (length (images request))) = true)
    (Huploads : fst (uploadImages uploadBuffer jobId 0 (images request) [] db)
                = Return imageUrls)
    (Hcovered : calculateBatchCredits (length (images request))
                <= User.creditsBalance u)
    (Hfresh : jobs db !! jobId = None)
    (Hqueued :
       addJob {| queue_jobId := jobId;
                 queue_userId := userId;
                 queue_backgroundPrompt :=
                   default EmptyString (backgroundPrompt request);
                 queue_inputImages := imageUrls |} = Return tt) :
  let totalCredits := calculateBatchCredits (length (images request)) in
  exists (db' : Db) (reservation : CreditTransaction.t) (job : Job.t) (u' : User.t),
    post request jobId db =
      (Return {| status := 201;
                 body := Created {| summary_id := jobId;
                                    summary_status := Job.pending;
                                    summary_imageCount := length (images request);
                                    summary_creditsReserved := totalCredits |} |},
       db')
    /\ creditTransactions db' = creditTransactions db ++ [reservation]
    /\ CreditTransaction.userId reservation = userId
    /\ CreditTransaction.type reservation = CreditTransaction.usage
    /\ CreditTransaction.amount reservation = - totalCredits
    /\ CreditTransaction.jobId reservation = Some jobId
    /\ jobs db' = <[jobId := job]> (jobs db)
    /\ Job.userId job = userId
    /\ Job.status job = Job.pending
    /\ Job.creditsReserved job = totalCredits
    /\ Job.creditsConsumed job = 0
    /\ Job.inputImages job = imageUrls
    /\ Job.originalImageUrl job = head imageUrls
    /\ Job.errorMessage job = None
    /\ users db' = <[userId := u']> (users db)
    /\ User.creditsBalance u' = User.creditsBalance u - totalCredits
    /\ User.creditsUsedThisMonth u' = User.creditsUsedThisMonth u + totalCredits.
Proof.
  intros totalCredits. subst post totalCredits.
  pose proof (uploadImages_db uploadBuffer jobId (images request) 0%nat [] db) as Hdb.
  unfold POST, try_catch, bind, ret, lift,
         prisma.user_findUnique, prisma.job_create, prisma.job_update.
  rewrite Hsession.
  destruct (Nat.eqb_spec (length (images request)) 0) as [H0|_]; [lia|].
  rewrite Hprompt.
  destruct (Nat.ltb_spec 100 (length (images request))) as [H100|_]; [lia|].
  rewrite Haccount, Hcheck. cbn [negb]. cbv beta iota.
  destruct (uploadImages uploadBuffer jobId 0 (images request) [] db)
    as [o db0]. simpl in Huploads, Hdb. subst o db0.
  rewrite (deductCredits_covered db userId u _ jobId _ Haccount Hcovered).
  simpl. rewrite Hfresh. simpl. rewrite Hqueued.
  eexists _, _, _, _. split; [reflexivity|]. simpl.
  repeat split; reflexivity.
Qed.

(** X17. When an upload fails nothing has been billed yet: the handler
    answers 500 with its generic message and the database is untouched
    -- no reservation, no transaction, no job row. *)
Theorem failed_upload_bills_nothing
    (request : Request) (jobId userId : string) (db : Db) (u : User.t)
    (uploadError : string)
    (Hsession : session_user request = Some userId)
    (Himages : (0 < length (images request) <= 100)%nat)
    (Hprompt : promptMissing (backgroundPrompt request) = false)
    (Haccount : users db !! userId = Some u)
    (Hcheck : hasEnoughCredits (User.creditsBalance u)
                (calculateBatchCredits (length (images request))) = true)
    (Huploads : fst (uploadImages uploadBuffer jobId 0 (images request) [] db)
                = Throw uploadError) :
  post request jobId db =
    (Return {| status := 500;
               body := Error "An error occurred while creating the job" |}, db).
Proof.
  subst post.
  pose proof (uploadImages_db uploadBuffer jobId (images request) 0%nat [] db) as Hdb.
  unfold POST, try_catch, bind, ret, lift, prisma.user_findUnique.
  rewrite Hsession.
  destruct (Nat.eqb_spec (length (images request)) 0) as [H0|_]; [lia|].
  rewrite Hprompt.
  destruct (Nat.ltb_spec 100 (length (images request))) as [H100|_]; [lia|].
  rewrite Haccount, Hcheck. cbn [negb]. cbv beta iota.
  destruct (uploadImages uploadBuffer jobId 0 (images request) [] db)
    as [o db0]. simpl in Huploads, Hdb. subst o db0.
  reflexivity.
Qed.

(** The name under which the image of index [k] is stored. *)
Let storedName (jobId : string) (k : nat) (file : File) : string :=
  jobId +:+ "_input_" +:+ pretty k +:+ "." +:+ extension file.

Lemma uploadImages_spec (jobId : string) (files : list File) :
  forall (i : nat) (acc : list string) (db : Db),
    match fst (uploadImages uploadBuffer jobId i files acc db) with
    | Return urls =>
        exists new,
          urls = acc ++ new
          /\ length new = length files
          /\ forall k file, files !! k = Some file ->
               exists url,
                 new !! k = Some url
                 /\ uploadBuffer (file_bytes file) (storedName jobId (i + k) file)
                      (file_type file) = Return url
    | Throw e =>
        exists k file,
          files !! k = Some file
          /\ uploadBuffer (file_bytes file) (storedName jobId (i + k) file)
               (file_type file) = Throw e
          /\ forall j earlier, (j < k)%nat -> files !! j = Some earlier ->
               exists url,
                 uploadBuffer (file_bytes earlier) (storedName jobId (i + j) earlier)
                   (file_type earlier) = Return url
    end.
Proof.
  induction files as [|file rest IH]; intros i acc db.
  - simpl. exists []. rewrite app_nil_r. repeat split.
    intros k f Hk. rewrite lookup_nil in Hk. discriminate.
  - simpl. unfold bind, lift.
    destruct (uploadBuffer (file_bytes file) _ (file_type file)) as [url|e] eqn:Hup.
    + specialize (IH (S i) (acc ++ [url]) db).
      destruct (fst (uploadImages uploadBuffer jobId (S i) rest (acc ++ [url]) db))
        as [urls|e].
      * destruct IH as (new & -> & Hlen & Hall).
        exists (url :: new). rewrite <- app_assoc. simpl.
        split; [reflexivity|]. split; [lia|].
        intros [|k] f Hk; simpl in Hk.
        -- injection Hk as <-. exists url. rewrite Nat.add_0_r.
           split; [reflexivity | exact Hup].
        -- destruct (Hall k f Hk) as (url' & Hnew & Hup').
           exists url'. rewrite Nat.add_succ_r. split; assumption.
      * destruct IH as (k & f & Hk & Hfail & Hbefore).
        exists (S k), f. rewrite Nat.add_succ_r.
        split; [exact Hk|]. split; [exact Hfail|].
        intros [|j] earlier Hj Hearlier; simpl in Hearlier.
        -- injection Hearlier as <-. exists url. rewrite Nat.add_0_r. exact Hup.
        -- rewrite Nat.add_succ_r. apply (Hbefore j earlier); [lia|exact Hearlier].
    + simpl. exists 0%nat, file. rewrite Nat.add_0_r.
      split; [reflexivity|]. split; [exact Hup|].
      intros j earlier Hj. lia.
Qed.

(** X18. The upload loop keeps the images in order.  When it returns,
    there is one URL per image, the k-th URL is what the storage
    service returned for the k-th image, and that image was stored
    under [<jobId>_input_<k>.<extension>].  When it throws, it throws
    the error of the first upload that failed, every earlier one having
    succeeded. *)
Theorem uploads_keep_order (jobId : string) (files : list File) (db : Db) :
  (forall urls,
     fst (uploadImages uploadBuffer jobId 0 files [] db) = Return urls ->
     length urls = length files
     /\ forall k file, files !! k = Some file ->
          exists url,
            urls !! k = Some url
            /\ uploadBuffer (file_bytes file) (storedName jobId k file)
                 (file_type file) = Return url)
  /\ (forall e,
        fst (uploadImages uploadBuffer jobId 0 files [] db) = Throw e ->
        exists k file,
          files !! k = Some file
          /\ uploadBuffer (file_bytes file) (storedName jobId k file)
               (file_type file) = Throw e
          /\ forall j earlier, (j < k)%nat -> files !! j = Some earlier ->
               exists url,
                 uploadBuffer (file_bytes earlier) (storedName jobId j earlier)
                   (file_type earlier) = Return url).
Proof.
  pose proof (uploadImages_spec jobId files 0%nat [] db) as Hspec.
  split.
  - intros urls Hrun. rewrite Hrun in Hspec.
    destruct Hspec as (new & -> & Hlen & Hall). simpl.
    split; [exact Hlen | exact Hall].
  - intros e Hrun. rewrite Hrun in Hspec. exact Hspec.
Qed.

End Submission.

Lemma rejected_submission_changes_nothing_witness :
  snd (JobsRoute.POST thousandPerImage noDiscount covers stored queueUp
         submission "job-8" sampleDb) = sampleDb.
Proof.
  exact (rejected_submission_changes_nothing
           thousandPerImage noDiscount covers stored queueUp
           submission "job-8" sampleDb _ _ eq_refl
           ltac:(vm_compute; auto)).
Defined.

Lemma accepted_submission_reserves_witness :
  exists db' reservation job u',
    fst (JobsRoute.POST onePerImage noDiscount covers stored queueUp
           submission "job-8" sampleDb)
    = Return {| JobsRoute.status := 201;
                JobsRoute.body :=
                  JobsRoute.Created
                    {| JobsRoute.summary_id := "job-8";
                       JobsRoute.summary_status := Job.pending;
                       JobsRoute.summary_imageCount := 2;
                       JobsRoute.summary_creditsReserved := 2 |} |}
    /\ creditTransactions db' = [reservation]
    /\ CreditTransaction.amount reservation = -2
    /\ jobs db' = <["job-8" := job]> ∅
    /\ Job.status job = Job.pending
    /\ users db' = <["alice" := u']> (users sampleDb)
    /\ User.creditsBalance u' = 98.
Proof.
  destruct (accepted_submission_reserves
              onePerImage noDiscount covers stored queueUp
              submission "job-8" "alice" sampleDb alice
              ["https://bucket/job-8_input_0.png";
               "https://bucket/job-8_input_1.back"]
              eq_refl ltac:(simpl; lia) ltac:(vm_compute; reflexivity)
              eq_refl eq_refl ltac:(vm_compute; reflexivity)
              ltac:(vm_compute; discriminate) eq_refl eq_refl)
    as (db' & reservation & job & u' & Hrun & Htxs & _ & _ & Hamt & _ & Hjobs
        & _ & Hstatus & _ & _ & _ & _ & _ & Hu & Hbal & _).
  exists db', reservation, job, u'.
  split; [rewrite Hrun; reflexivity|].
  repeat split; assumption.
Defined.

Lemma failed_upload_bills_nothing_witness :
  JobsRoute.POST onePerImage noDiscount covers storageDown queueUp
    submission "job-8" sampleDb
  = (Return {| JobsRoute.status := 500;
               JobsRoute.body :=
                 JobsRoute.Error "An error occurred while creating the job" |},
     sampleDb).
Proof.
  exact (failed_upload_bills_nothing
           onePerImage noDiscount covers storageDown queueUp
           submission "job-8" "alice" sampleDb alice "S3 unavailable"
           eq_refl ltac:(simpl; lia) ltac:(vm_compute; reflexivity)
           eq_refl eq_refl eq_refl).
Defined.

(* ===================================================================== *)
(** * Further properties: file extensions and blank prompts *)
(* ===================================================================== *)

Section Texts.

Import JobsRoute.

Lemma append_empty_r (s : string) : s +:+ EmptyString = s.
Proof.
  induction s as [|c s IH]; [reflexivity|].
  change (String c (s +:+ EmptyString) = String c s). f_equal. exact IH.
Qed.

Lemma append_associative (a b c : string) : (a +:+ b) +:+ c = a +:+ (b +:+ c).
Proof.
  induction a as [|x a IH]; [reflexivity|].
  change (String x ((a +:+ b) +:+ c) = String x (a +:+ (b +:+ c))).
  f_equal. exact IH.
Qed.

Lemma dotFree_append (a b : string) :
  dotFree (a +:+ b) = dotFree a && dotFree b.
Proof.
  induction a as [|x a IH]; [reflexivity|].
  change (String x a +:+ b) with (String x (a +:+ b)). simpl.
  rewrite IH, andb_assoc. reflexivity.
Qed.

(** Without a dot ahead, the segment being read runs to the end. *)
Lemma lastSegment_dotFree (s : string) :
  forall current, dotFree s = true -> lastSegment current s = current +:+ s.
Proof.
  induction s as [|c s IH]; intros current Hs; simpl in *.
  - symmetry. apply append_empty_r.
  - apply andb_prop in Hs as [Hc Hs]. apply negb_true_iff in Hc. rewrite Hc.
    rewrite (IH _ Hs), append_associative. reflexivity.
Qed.

(** A dot starts a new segment, whatever came before it. *)
Lemma lastSegment_after_dot (base rest : string) :
  forall current,
    lastSegment current (base +:+ String "."%char rest)
    = lastSegment EmptyString rest.
Proof.
  induction base as [|c base IH]; intros current.
  - reflexivity.
  - change (String c base +:+ String "."%char rest)
      with (String c (base +:+ String "."%char rest)).
    simpl. destruct (Ascii.eqb c "."); apply IH.
Qed.

Lemma lastSegment_is_dotFree (s : string) :
  forall current, dotFree current = true -> dotFree (lastSegment current s) = true.
Proof.
  induction s as [|c s IH]; intros current Hcur; simpl.
  - exact Hcur.
  - destruct (Ascii.eqb c ".") eqn:Hc.
    + apply IH. reflexivity.
    + apply IH. rewrite dotFree_append, Hcur. simpl. rewrite Hc. reflexivity.
Qed.

(** X19. The extension given to a stored image is the text after the
    last dot of the file's name: [base.ext] gives [ext] when [ext] is
    not empty and holds no dot, whatever dots [base] holds.  A name
    without any dot is taken whole.  An empty name, or one that ends in
    a dot, gives "jpg".  In every case the extension is not empty and
    holds no dot. *)
Theorem extension_is_last_segment (file : File) :
  (forall base ext,
     file_name file = base +:+ "." +:+ ext ->
     dotFree ext = true -> ext <> EmptyString ->
     extension file = ext)
  /\ (dotFree (file_name file) = true -> file_name file <> EmptyString ->
        extension file = file_name file)
  /\ (forall base, file_name file = base +:+ "." -> extension file = "jpg")
  /\ (file_name file = EmptyString -> extension file = "jpg")
  /\ extension file <> EmptyString
  /\ dotFree (extension file) = true.
Proof.
  unfold extension. repeat split.
  - intros base ext -> Hfree Hne.
    change (base +:+ "." +:+ ext) with (base +:+ String "."%char ext).
    rewrite lastSegment_after_dot, (lastSegment_dotFree _ _ Hfree). simpl.
    rewrite bool_decide_eq_false_2 by exact Hne. reflexivity.
  - intros Hfree Hne.
    rewrite (lastSegment_dotFree _ _ Hfree). simpl.
    rewrite bool_decide_eq_false_2 by exact Hne. reflexivity.
  - intros base ->.
    change (base +:+ ".") with (base +:+ String "."%char EmptyString).
    rewrite lastSegment_after_dot. reflexivity.
  - intros ->. reflexivity.
  - destruct (bool_decide (lastSegment EmptyString (file_name file) = EmptyString))
      eqn:Hd; [discriminate|].
    apply bool_decide_eq_false in Hd. exact Hd.
  - destruct (bool_decide (lastSegment EmptyString (file_name file) = EmptyString));
      [reflexivity|].
    apply lastSegment_is_dotFree. reflexivity.
Qed.

Lemma trimStart_blank (text : list N) :
  forallb isWhiteSpace text = true -> trimStart text = [].
Proof.
  induction text as [|c rest IH]; simpl; [reflexivity|].
  intros H. apply andb_prop in H as [Hc Hrest]. rewrite Hc. apply IH, Hrest.
Qed.

Lemma trimStart_keeps_ink (text : list N) :
  forallb isWhiteSpace text = false ->
  exists c rest, trimStart text = c :: rest /\ isWhiteSpace c = false.
Proof.
  induction text as [|c rest IH]; simpl; [discriminate|].
  destruct (isWhiteSpace c) eqn:Hc; simpl.
  - exact IH.
  - intros _. exists c, rest. split; [reflexivity | exact Hc].
Qed.

Lemma forallb_rev (text : list N) :
  forallb isWhiteSpace (rev text) = forallb isWhiteSpace text.
Proof.
  induction text as [|c rest IH]; [reflexivity|].
  simpl. rewrite forallb_app, IH. simpl.
  destruct (isWhiteSpace c), (forallb isWhiteSpace rest); reflexivity.
Qed.

(** Trimming leaves nothing exactly when there was only white space. *)
Lemma trim_empty_iff (text : list N) :
  length (trim text) = 0%nat <-> forallb isWhiteSpace text = true.
Proof.
  unfold trim. rewrite length_rev.
  destruct (forallb isWhiteSpace text) eqn:Hs.
  - rewrite (trimStart_blank text Hs). simpl. split; reflexivity.
  - destruct (trimStart_keeps_ink text Hs) as (c & rest & -> & Hc).
    assert (Hrev : forallb isWhiteSpace (rev (c :: rest)) = false).
    { rewrite forallb_rev. simpl. rewrite Hc. reflexivity. }
    destruct (trimStart_keeps_ink _ Hrev) as (c' & rest' & -> & _).
    simpl. split; discriminate.
Qed.

(** The code points that count as white space, one by one. *)
Lemma isWhiteSpace_listed (codePoint : N) :
  isWhiteSpace codePoint = true
  <-> In codePoint
        [9; 10; 11; 12; 13; 32; 160; 5760;
         8192; 8193; 8194; 8195; 8196; 8197; 8198; 8199; 8200; 8201; 8202;
         8232; 8233; 8239; 8287; 12288; 65279]%N.
Proof.
  unfold isWhiteSpace.
  rewrite !orb_true_iff, !andb_true_iff, !N.leb_le, !N.eqb_eq.
  simpl. lia.
Qed.

(** X20. The prompt check turns down exactly the prompts made of
    nothing but white space: a missing prompt, an empty one, or one
    whose every character is TAB, LF, VT, FF, CR, SPACE, NO-BREAK SPACE
    (U+00A0), U+1680, U+2000..U+200A, U+2028, U+2029, U+202F, U+205F,
    U+3000 or U+FEFF.  A prompt holding any other character passes,
    white space around it or not. *)
Theorem promptMissing_iff_blank (prompt : option string) :
  promptMissing prompt = true
  <-> prompt = None
      \/ exists s,
           prompt = Some s
           /\ Forall (fun codePoint =>
                        In codePoint
                          [9; 10; 11; 12; 13; 32; 160; 5760;
                           8192; 8193; 8194; 8195; 8196; 8197; 8198; 8199;
                           8200; 8201; 8202;
                           8232; 8233; 8239; 8287; 12288; 65279]%N)
                     (codePoints s).
Proof.
  destruct prompt as [s|]; simpl.
  - rewrite orb_true_iff, bool_decide_eq_true, Nat.eqb_eq, trim_empty_iff.
    rewrite forallb_forall.
    split.
    + intros [->|Hs]; right; eexists; (split; [reflexivity|]).
      * constructor.
      * apply List.Forall_forall. intros x Hx.
        apply isWhiteSpace_listed, Hs, Hx.
    + intros [H|(s' & [= <-] & Hs)]; [discriminate|].
      right. intros x Hx. apply isWhiteSpace_listed.
      exact (proj1 (List.Forall_forall _ _) Hs x Hx).
  - split; [left; reflexivity | reflexivity].
Qed.

(** The check at work on characters outside ASCII: a prompt of
    no-break spaces, byte order mark, separators and wide spaces is
    missing; one accented letter between no-break spaces is a prompt. *)
Lemma promptMissing_beyond_ascii :
  codePoints unicodeBlank = [160; 65279; 8232; 12288; 8195; 32; 9]%N
  /\ promptMissing (Some unicodeBlank) = true
  /\ codePoints paddedLetter = [160; 233; 160]%N
  /\ trim (codePoints paddedLetter) = [233%N]
  /\ promptMissing (Some paddedLetter) = false.
Proof. vm_compute. repeat split; reflexivity. Qed.

End Texts.

(* ===================================================================== *)
(** * Further properties: the reset run *)
(* ===================================================================== *)

Section ResetRun.

Import CreditService CronRoute.

(** Resetting an existing account: the row it leaves and the
    transaction it appends. *)
Lemma resetMonthlyCredits_exact (now : Z) (userId : string) (db : Db) (u : User.t) :
  users db !! userId = Some u ->
  exists res tx,
    resetMonthlyCredits now userId db
    = (Return res,
       {| users := <[userId := Ledger.rowAfter (Ledger.MonthlyReset now) u]> (users db);
          creditTransactions := creditTransactions db ++ [tx];
          jobs := jobs db |})
    /\ CreditTransaction.userId tx = userId
    /\ CreditTransaction.type tx = CreditTransaction.monthly_reset
    /\ CreditTransaction.amount tx
       = Pricing.monthlyCredits (Pricing.getTierConfig (User.tier u))
    /\ CreditTransaction.jobId tx = None.
Proof.
  intros Hu. run_service. rewrite Hu. simpl. rewrite Hu.
  eexists _, _. split; [reflexivity|]. repeat split.
Qed.

(** The loop goes through every id: an id without an account adds one
    failure and one message, any other id one success. *)
Lemma processEach_report (resetAt : string -> Z) (userIds : list string) :
  forall (results : Results) (db : Db),
    exists results',
      fst (processEach resetAt userIds results db) = Return results'
      /\ total results' = total results
      /\ successful results'
         = (successful results
            + length (filter (fun id => is_Some (users db !! id)) userIds))%nat
      /\ failed results'
         = (failed results
            + length (filter (fun id => users db !! id = None) userIds))%nat
      /\ errors results'
         = errors results
           ++ (notFoundReport <$> filter (fun id => users db !! id = None) userIds).
Proof.
  induction userIds as [|userId rest IH]; intros results db.
  - exists results. simpl. rewrite app_nil_r. repeat split; lia.
  - cbn [processEach]. unfold bind, try_catch, ret.
    rewrite !filter_cons.
    destruct (users db !! userId) as [u|] eqn:Hu.
    + destruct (resetMonthlyCredits_exact (resetAt userId) userId db u Hu)
        as (res & tx & -> & _).
      generalize (Ledger.rowAfter (Ledger.MonthlyReset (resetAt userId)) u).
      intros row.
      destruct (IH (succeeded results)
                   {| users := <[userId := row]> (users db);
                      creditTransactions := creditTransactions db ++ [tx];
                      jobs := jobs db |})
        as (results' & Hrun & Htotal & Hok & Hko & Herr).
      exists results'. split; [exact Hrun|].
      assert (Hsome : forall id,
                is_Some (<[userId := row]> (users db) !! id)
                <-> is_Some (users db !! id)).
      { intros id. destruct (decide (userId = id)) as [<-|Hne].
        - rewrite lookup_insert_eq, Hu. split; eauto.
        - rewrite lookup_insert_ne by exact Hne. reflexivity. }
      assert (Hnone : forall id,
                <[userId := row]> (users db) !! id = None
                <-> users db !! id = None).
      { intros id. destruct (decide (userId = id)) as [<-|Hne].
        - rewrite lookup_insert_eq, Hu. split; discriminate.
        - rewrite lookup_insert_ne by exact Hne. reflexivity. }
      simpl in Hok, Hko, Herr, Htotal.
      rewrite (list_filter_iff _ _ _ Hsome) in Hok.
      rewrite (list_filter_iff _ _ _ Hnone) in Hko, Herr.
      rewrite decide_True by eauto.
      rewrite decide_False by congruence.
      simpl. repeat split; [exact Htotal | lia | lia | exact Herr].
    + destruct (missing_account_throws db userId Hu) as (_ & _ & _ & -> & _).
      destruct (IH (errored userId (user_not_found userId) results) db)
        as (results' & Hrun & Htotal & Hok & Hko & Herr).
      exists results'. split; [exact Hrun|].
      simpl in Hok, Hko, Herr, Htotal.
      rewrite decide_False by (intros [? ?]; congruence).
      rewrite decide_True by reflexivity.
      simpl. rewrite <- app_assoc in Herr.
      repeat split; [exact Htotal | lia | lia | exact Herr].
Qed.

(** X21. One account's failure does not stop the run.  The loop over
    the selected ids never throws: an id whose account is gone is
    counted as failed, with a message naming it, and the loop goes on;
    every other id is counted as successful.  Successes and failures
    add up to the number of ids. *)
Theorem reset_loop_isolates_failures
    (resetAt : string -> Z) (userIds : list string) (db : Db) :
  exists results,
    fst (processEach resetAt userIds
           {| total := length userIds; successful := 0;
              failed := 0; errors := [] |} db) = Return results
    /\ total results = length userIds
    /\ (successful results + failed results)%nat = length userIds
    /\ successful results
       = length (filter (fun id => is_Some (users db !! id)) userIds)
    /\ failed results = length (errors results)
    /\ errors results
       = (fun id => "User " +:+ id +:+ ": User not found: " +:+ id)
         <$> filter (fun id => users db !! id = None) userIds.
Proof.
  destruct (processEach_report resetAt userIds
              {| total := length userIds; successful := 0;
                 failed := 0; errors := [] |} db)
    as (results & Hrun & Htotal & Hok & Hko & Herr).
  simpl in *. exists results.
  split; [exact Hrun|]. split; [exact Htotal|].
  assert (Hsplit : (length (filter (fun id => is_Some (users db !! id)) userIds)
                    + length (filter (fun id => users db !! id = None) userIds))%nat
                   = length userIds).
  { clear. induction userIds as [|id rest IH]; [reflexivity|].
    rewrite !filter_cons.
    destruct (users db !! id) as [u|] eqn:Hu.
    - rewrite decide_True by eauto. rewrite decide_False by congruence.
      simpl. lia.
    - rewrite decide_False by (intros [? ?]; congruence).
      rewrite decide_True by reflexivity. simpl. lia. }
  split; [lia|]. split; [exact Hok|].
  split; [rewrite Herr, length_fmap; exact Hko | exact Herr].
Qed.

Variable oneMonthBefore : Z -> Z.
Variable env : Env.

(** The request may run the batch: outside production always, in
    production with the bearer token. *)
Let authorized (authorization : option string) : Prop :=
  NODE_ENV env <> Some "production"
  \/ authorization = Some (bearer (CRON_SECRET env)).

Lemma GET_authorized (authorization : option string) (now : Z)
    (resetAt : string -> Z) (db : Db) :
  authorized authorization ->
  GET oneMonthBefore env authorization now resetAt db
  = try_catch
      (let! userIds := getUsersNeedingReset oneMonthBefore now in
       let! results :=
         processEach resetAt userIds
           {| total := length userIds; successful := 0;
              failed := 0; errors := [] |} in
       ret {| status := 200; body := Completed results |})
      (fun message => ret {| status := 500; body := Failed message |}) db.
Proof.
  intros Hauth. unfold GET, try_catch.
  destruct Hauth as [Hdev|Hbearer].
  - rewrite (bool_decide_eq_false_2 _ Hdev). reflexivity.
  - rewrite (bool_decide_eq_true_2 _ Hbearer), andb_false_r. reflexivity.
Qed.

(** X22. In production the reset endpoint answers 401 and resets
    nobody unless the [authorization] header is exactly "Bearer "
    followed by the configured secret (a secret that is not configured
    reads as "undefined").  Outside production the header is not looked
    at. *)
Theorem reset_endpoint_checks_bearer
    (authorization : option string) (now : Z) (resetAt : string -> Z) (db : Db) :
  (NODE_ENV env = Some "production" ->
   authorization <> Some ("Bearer " +:+ default "undefined" (CRON_SECRET env)) ->
   GET oneMonthBefore env authorization now resetAt db
   = (Return {| status := 401; body := Unauthorized |}, db))
  /\ (NODE_ENV env <> Some "production" ->
      GET oneMonthBefore env authorization now resetAt db
      = GET oneMonthBefore env None now resetAt db).
Proof.
  split.
  - intros Hprod Hbad. unfold GET, try_catch, ret.
    rewrite (bool_decide_eq_true_2 _ Hprod).
    unfold bearer. rewrite (bool_decide_eq_false_2 _ Hbad). reflexivity.
  - intros Hdev.
    rewrite !GET_authorized by (left; exact Hdev). reflexivity.
Qed.

(** The ids selected by the query, without repetition, each of an
    existing account. *)
Lemma selection_is_sound (now : Z) (db : Db) :
  exists ids,
    getUsersNeedingReset oneMonthBefore now db = (Return ids, db)
    /\ NoDup ids
    /\ forall id, id ∈ ids -> is_Some (users db !! id).
Proof.
  unfold getUsersNeedingReset, prisma.user_findMany.
  eexists. split; [reflexivity|]. split.
  - apply NoDup_fmap_fst; [|apply NoDup_filter, NoDup_map_to_list].
    intros k v1 v2 H1 H2.
    apply list_elem_of_filter in H1 as [_ H1].
    apply list_elem_of_filter in H2 as [_ H2].
    apply elem_of_map_to_list in H1, H2. congruence.
  - intros id Hin. apply list_elem_of_fmap in Hin as ([k u] & -> & Hin).
    apply list_elem_of_filter in Hin as [_ Hin].
    apply elem_of_map_to_list in Hin. simpl. eauto.
Qed.

Lemma GET_db (authorization : option string) (now : Z)
    (resetAt : string -> Z) (db : Db) (ids : list string) :
  authorized authorization ->
  getUsersNeedingReset oneMonthBefore now db = (Return ids, db) ->
  GET oneMonthBefore env authorization now resetAt db
  = (match fst (processEach resetAt ids
                  {| total := length ids; successful := 0;
                     failed := 0; errors := [] |} db) with
     | Return results => Return {| status := 200; body := Completed results |}
     | Throw message => Return {| status := 500; body := Failed message |}
     end,
     snd (processEach resetAt ids
            {| total := length ids; successful := 0;
               failed := 0; errors := [] |} db)).
Proof.
  intros Hauth Hsel. rewrite (GET_authorized _ _ _ _ Hauth).
  unfold try_catch, bind, ret. rewrite Hsel.
  destruct (processEach resetAt ids _ db) as [[results|message] db'];
    reflexivity.
Qed.

(** The loop resets an account whose id it is given once. *)
Lemma processEach_resets (resetAt : string -> Z) (userId : string)
    (userIds : list string) :
  forall (results : Results) (db : Db) (u : User.t),
    NoDup userIds ->
    userId ∈ userIds ->
    users db !! userId = Some u ->
    users (snd (processEach resetAt userIds results db)) !! userId
    = Some (Ledger.rowAfter (Ledger.MonthlyReset (resetAt userId)) u)
    /\ exists tx,
         Ledger.transactionsOf userId (snd (processEach resetAt userIds results db))
         = Ledger.transactionsOf userId db ++ [tx]
         /\ CreditTransaction.type tx = CreditTransaction.monthly_reset
         /\ CreditTransaction.amount tx
            = Pricing.monthlyCredits (Pricing.getTierConfig (User.tier u)).
Proof.
  induction userIds as [|head rest IH]; intros results db u Hnodup Hin Hu.
  - apply elem_of_nil in Hin. contradiction.
  - apply NoDup_cons in Hnodup as [Hfresh Hnodup].
    cbn [processEach]. unfold bind, try_catch, ret.
    destruct (decide (head = userId)) as [->|Hne].
    + destruct (resetMonthlyCredits_exact (resetAt userId) userId db u Hu)
        as (res & tx & -> & Hid & Htype & Hamount & _).
      match goal with
      | |- context [processEach resetAt rest ?r ?d] =>
          destruct (processEach_other resetAt userId rest Hfresh r d) as [Hrow Htxs]
      end.
      rewrite Hrow, Htxs. simpl.
      split; [apply lookup_insert_eq|].
      exists tx. unfold Ledger.transactionsOf. simpl.
      rewrite filter_app, filter_cons, filter_nil, decide_True by exact Hid.
      repeat split; assumption.
    + apply elem_of_cons in Hin as [Heq|Hin]; [congruence|].
      destruct (resetMonthlyCredits_other (resetAt head) head userId db)
        as [Hrow Htxs]; [exact Hne|].
      destruct (resetMonthlyCredits (resetAt head) head db) as [[res|e] db1];
        simpl in Hrow, Htxs; rewrite <- Hrow in Hu; rewrite <- Htxs;
        apply IH; assumption.
Qed.

Lemma all_known (db : Db) (ids : list string) :
  (forall id, id ∈ ids -> is_Some (users db !! id)) ->
  filter (fun id => is_Some (users db !! id)) ids = ids
  /\ filter (fun id => users db !! id = None) ids = [].
Proof.
  induction ids as [|id rest IH]; intros Hall; [split; reflexivity|].
  destruct IH as [Hsome Hnone].
  { intros x Hx. apply Hall. right. exact Hx. }
  rewrite !filter_cons, Hsome, Hnone.
  pose proof (Hall id ltac:(left)) as [u Hu].
  rewrite decide_True by eauto. rewrite decide_False by congruence.
  split; reflexivity.
Qed.

(** X23. A reset run that is let in answers 200 with a report in which
    every selected account is counted as successful: [total] is the
    number of accounts the selection query returned, [successful]
    equals [total], [failed] is 0 and there is no error message. *)
Theorem reset_run_reports_all_successful
    (authorization : option string) (now : Z) (resetAt : string -> Z) (db : Db)
    (Hauthorized : NODE_ENV env <> Some "production"
                   \/ authorization = Some (bearer (CRON_SECRET env))) :
  exists (results : Results) (db' : Db) (ids : list string),
    GET oneMonthBefore env authorization now resetAt db
    = (Return {| status := 200; body := Completed results |}, db')
    /\ fst (getUsersNeedingReset oneMonthBefore now db) = Return ids
    /\ total results = length ids
    /\ successful results = length ids
    /\ failed results = 0%nat
    /\ errors results = [].
Proof.
  destruct (selection_is_sound now db) as (ids & Hsel & _ & Hknown).
  destruct (all_known db ids Hknown) as [Hsome Hnone].
  destruct (processEach_report resetAt ids
              {| total := length ids; successful := 0;
                 failed := 0; errors := [] |} db)
    as (results & Hrun & Htotal & Hok & Hko & Herr).
  rewrite Hsome in Hok. rewrite Hnone in Hko, Herr. simpl in Htotal, Hok, Hko, Herr.
  exists results,
         (snd (processEach resetAt ids
                 {| total := length ids; successful := 0;
                    failed := 0; errors := [] |} db)),
         ids.
  rewrite (GET_db _ _ _ _ ids Hauthorized Hsel), Hrun, Hsel. simpl.
  repeat split; try assumption; lia.
Qed.

(** X24. A reset run that is let in resets every account that is due
    -- last reset a month or more ago, not on the free tier -- exactly
    once: the account gets its tier's allocation plus the capped
    rollover, [creditsUsedThisMonth] 0 and a new reset instant, and
    exactly one [monthly_reset] transaction of the allocation is added
    to its transactions. *)
Theorem due_account_is_reset_once
    (authorization : option string) (now : Z) (resetAt : string -> Z)
    (db : Db) (userId : string) (u : User.t)
    (Hauthorized : NODE_ENV env <> Some "production"
                   \/ authorization = Some (bearer (CRON_SECRET env)))
    (Haccount : users db !! userId = Some u)
    (Hdue : User.lastCreditReset u <= oneMonthBefore now)
    (Hpaid : User.tier u <> Pricing.free) :
  let db' := snd (GET oneMonthBefore env authorization now resetAt db) in
  let cfg := Pricing.getTierConfig (User.tier u) in
  exists u' tx,
    users db' !! userId = Some u'
    /\ User.creditsBalance u'
       = Pricing.monthlyCredits cfg
         + Z.min (Z.max 0 (User.creditsBalance u)) (Pricing.rolloverCap cfg)
    /\ User.creditsUsedThisMonth u' = 0
    /\ User.lastCreditReset u' = resetAt userId
    /\ User.tier u' = User.tier u
    /\ Ledger.transactionsOf userId db' = Ledger.transactionsOf userId db ++ [tx]
    /\ CreditTransaction.type tx = CreditTransaction.monthly_reset
    /\ CreditTransaction.amount tx = Pricing.monthlyCredits cfg.
Proof.
  intros db' cfg. subst db'.
  destruct (selection_is_sound now db) as (ids & Hsel & Hnodup & _).
  assert (Hin : userId ∈ ids).
  { pose proof (proj2 (getUsersNeedingReset_selects oneMonthBefore now db userId))
      as Hselected.
    rewrite Hsel in Hselected. apply Hselected. exists u. auto. }
  rewrite (GET_db _ _ _ _ ids Hauthorized Hsel). cbn [snd].
  destruct (processEach_resets resetAt userId ids
              {| total := length ids; successful := 0;
                 failed := 0; errors := [] |} db u Hnodup Hin Haccount)
    as (Hrow & tx & Htxs & Htype & Hamount).
  eexists _, tx. split; [exact Hrow|].
  simpl. repeat split; assumption.
Qed.

(** X25. A reset run never touches an account that is not due: an
    account on the free tier, or one reset less than a month ago, keeps
    its row and its transactions, whoever calls the endpoint. *)
Theorem account_not_due_is_untouched
    (authorization : option string) (now : Z) (resetAt : string -> Z)
    (db : Db) (userId : string)
    (Hnotdue : forall u, users db !! userId = Some u ->
                 User.tier u = Pricing.free
                 \/ oneMonthBefore now < User.lastCreditReset u) :
  let db' := snd (GET oneMonthBefore env authorization now resetAt db) in
  users db' !! userId = users db !! userId
  /\ Ledger.transactionsOf userId db' = Ledger.transactionsOf userId db.
Proof.
  intros db'. subst db'.
  destruct (decide (NODE_ENV env = Some "production")) as [Hprod|Hdev];
    [destruct (decide (authorization = Some (bearer (CRON_SECRET env))))
       as [Hbearer|Hbad]|].
  2:{ unfold GET, try_catch, ret.
      rewrite (bool_decide_eq_true_2 _ Hprod), (bool_decide_eq_false_2 _ Hbad).
      split; reflexivity. }
  all: destruct (selection_is_sound now db) as (ids & Hsel & _ & _).
  all: assert (Hout : userId ∉ ids)
         by (intros Hin;
             pose proof (proj1 (getUsersNeedingReset_selects
                                  oneMonthBefore now db userId)) as Hselected;
             rewrite Hsel in Hselected;
             destruct (Hselected Hin) as (u & Hu & Hle & Hpaid);
             destruct (Hnotdue u Hu); [congruence | lia]).
  - rewrite (GET_db _ _ _ _ ids (or_intror Hbearer) Hsel). cbn [snd].
    apply processEach_other. exact Hout.
  - rewrite (GET_db _ _ _ _ ids (or_introl Hdev) Hsel). cbn [snd].
    apply processEach_other. exact Hout.
Qed.

End ResetRun.

Lemma reset_run_reports_all_successful_witness :
  exists results db' ids,
    CronRoute.GET thirtyDaysBefore production (Some "Bearer s3cret")
      5000000000 (fun _ => 5000000001) threeAccounts
    = (Return {| CronRoute.status := 200;
                 CronRoute.body := CronRoute.Completed results |}, db')
    /\ fst (CreditService.getUsersNeedingReset thirtyDaysBefore 5000000000
              threeAccounts) = Return ids
    /\ CronRoute.total results = length ids
    /\ CronRoute.successful results = length ids
    /\ CronRoute.failed results = 0%nat
    /\ CronRoute.errors results = [].
Proof.
  exact (reset_run_reports_all_successful thirtyDaysBefore production
           (Some "Bearer s3cret") 5000000000 (fun _ => 5000000001)
           threeAccounts (or_intror eq_refl)).
Defined.

Lemma due_account_is_reset_once_witness :
  exists u' tx,
    users (snd (CronRoute.GET thirtyDaysBefore production (Some "Bearer s3cret")
                  5000000000 (fun _ => 5000000001) threeAccounts)) !! "alice"
    = Some u'
    /\ User.creditsBalance u' = 150
    /\ User.creditsUsedThisMonth u' = 0
    /\ User.lastCreditReset u' = 5000000001
    /\ CreditTransaction.amount tx = 100.
Proof.
  destruct (due_account_is_reset_once thirtyDaysBefore production
              (Some "Bearer s3cret") 5000000000 (fun _ => 5000000001)
              threeAccounts "alice" alice (or_intror eq_refl) eq_refl
              ltac:(vm_compute; discriminate) ltac:(discriminate))
    as (u' & tx & Hu & Hbal & Hused & Hlast & _ & _ & _ & Hamt).
  exists u', tx. repeat split; assumption.
Defined.

Lemma account_not_due_is_untouched_witness :
  users (snd (CronRoute.GET thirtyDaysBefore production (Some "Bearer s3cret")
                5000000000 (fun _ => 5000000001) threeAccounts)) !! "dave"
  = Some dave.
Proof.
  destruct (account_not_due_is_untouched thirtyDaysBefore production
              (Some "Bearer s3cret") 5000000000 (fun _ => 5000000001)
              threeAccounts "dave"
              ltac:(intros u Hu; vm_compute in Hu; injection Hu as <-;
                    left; reflexivity))
    as [Hrow _].
  rewrite Hrow. reflexivity.
Defined.
